(** * exact_avg: a precision-aware exact average aggregate

    A shallow embedding of [exact_avg.cpp] (the aggregate class [ExactAvg]
    and its factory [ExactAvgFactory]) and the properties of the planner,
    the four aggregation phases and the overflow certificate.

    Conventions.
    - [int32] and [vint] (the host's signed 64-bit integer) values are
      integers of [Z]; every arithmetic operation of the source is followed
      by the wrap-around of its type.  The row counter is signed: the source
      tests [rowCount < 0] and bounds it by 9,223,372,036,854,775,807.
    - [vt_report_error] throws; a callback is a computation in a state and
      error monad over the object it mutates ([IntermediateAggs], the result
      slot of the [BlockWriter], the [SizedColumnTypes] being filled).
    - The host's decimal primitives ([VNumeric::setZero], [accumulate],
      [copy], [div]) are not part of the repository: they are the operations
      of the class [VNumeric], and are assumed total.  The handlers
      [catch (std::exception &)] of the callbacks report again, under the
      name of the callback, what they catch; the model keeps the error that
      is reported first. *)

From Equations Require Import Equations.
From Stdlib Require Import ZArith Lia List Bool String Permutation.
Import ListNotations.
Local Open Scope Z_scope.

(* ------------------------------------------------------------------------- *)
(** ** Machine integers *)

Module Int.

(** Two's complement wrap-around of [z] to [w] bits. *)
Definition wrap (w z : Z) : Z := (z + 2 ^ (w - 1)) mod 2 ^ w - 2 ^ (w - 1).

Definition int32 (z : Z) : Z := wrap 32 z.
Definition int64 (z : Z) : Z := wrap 64 z.

Definition INT32_MAX : Z := 2 ^ 31 - 1.
Definition INT64_MAX : Z := 2 ^ 63 - 1.

Definition in_int32 (z : Z) : Prop := - 2 ^ 31 <= z <= INT32_MAX.
Definition in_int64 (z : Z) : Prop := - 2 ^ 63 <= z <= INT64_MAX.

End Int.
Import Int.

(* ------------------------------------------------------------------------- *)
(** ** Errors, and the monad of the callbacks *)

(** One constructor per [vt_report_error] call of the source, with the
    arguments of its format string. *)
Inductive error : Type :=
| ErrArgumentCount
    (* "exact_avg expects exactly one argument" *)
| ErrNotNumeric
    (* "exact_avg expects a NUMERIC/DECIMAL input type" *)
| ErrInvalidInputPrecision (p_in : Z)
    (* "exact_avg: invalid input NUMERIC precision %d" *)
| ErrStoredScale (s_in_stored : Z)
    (* "exact_avg: internal error: invalid stored input scale %lld" *)
| ErrStoredPrecision (p_in_stored : Z)
    (* "exact_avg: internal error: invalid stored input precision %lld" *)
| ErrNegativeRowCount (rowCount : Z)
    (* "exact_avg: internal error: negative row count %lld" *)
| ErrZeroDigitCount (rowCount : Z)
    (* "exact_avg: internal error: zero digit count for row count %lld" *)
| ErrPrecisionExceeded (p_needed p_in digitsN rowCount max_precision : Z)
    (* "exact_avg: Cannot calculate the exact average for such huge numbers:
        required precision %d (input precision %d plus %d digits for row
        count %lld) exceeds Vertica NUMERIC maximum precision %d. ..." *).

(** The three kinds of failure of the specification. *)
Inductive ErrorKind : Type := InvalidInputShape | PrecisionExceeded | CorruptState.

Definition error_kind (e : error) : ErrorKind :=
  match e with
  | ErrArgumentCount | ErrNotNumeric | ErrInvalidInputPrecision _ => InvalidInputShape
  | ErrStoredScale _ | ErrStoredPrecision _
  | ErrNegativeRowCount _ | ErrZeroDigitCount _ => CorruptState
  | ErrPrecisionExceeded _ _ _ _ _ => PrecisionExceeded
  end.

Inductive result (A : Type) : Type :=
| Ok (a : A)
| Throw (e : error).
Arguments Ok {A} a.
Arguments Throw {A} e.

(** A callback over a mutable object of type [S]: the object as the callback
    leaves it, and what the callback returned or threw. *)
Definition M (S A : Type) : Type := S -> S * result A.

Definition ret {S A} (a : A) : M S A := fun s => (s, Ok a).

Definition bind {S A B} (c : M S A) (k : A -> M S B) : M S B :=
  fun s =>
    match c s with
    | (s', Ok a) => k a s'
    | (s', Throw e) => (s', Throw e)
    end.

Definition get {S} : M S S := fun s => (s, Ok s).
Definition modify {S} (f : S -> S) : M S unit := fun s => (f s, Ok tt).
Definition vt_report_error {S A} (e : error) : M S A := fun s => (s, Throw e).

(** [when c e]: [if (c) vt_report_error(e);] *)
Definition when {S} (c : bool) (e : error) : M S unit :=
  if c then vt_report_error e else ret tt.

Declare Scope monad_scope.
Delimit Scope monad_scope with monad.
Notation "x <- c1 ;; c2" := (bind c1 (fun x => c2))
  (at level 61, c1 at next level, right associativity) : monad_scope.
Notation "c1 ;; c2" := (bind c1 (fun _ => c2))
  (at level 61, right associativity) : monad_scope.
Local Open Scope monad_scope.

(* ------------------------------------------------------------------------- *)
(** ** Host types *)

(** Maximum precision Vertica allows for NUMERIC. *)
Definition MAX_NUMERIC_PRECISION : Z := 1024.

(** What the callbacks read of a [VerticaType]. *)
Record VerticaType : Type := {
  isNumeric : bool;
  getNumericPrecision : Z;
  getNumericScale : Z
}.

Definition NUMERIC (p s : Z) : VerticaType :=
  {| isNumeric := true; getNumericPrecision := p; getNumericScale := s |}.

(** The entries of a [SizedColumnTypes]. *)
Inductive SizedColumn : Type :=
| NumericColumn (precision scale : Z) (name : string)
| IntColumn (name : string).

Definition SizedColumnTypes : Type := list SizedColumn.

Definition addNumeric (p s : Z) (name : string) : M SizedColumnTypes unit :=
  modify (fun cols => cols ++ [NumericColumn p s name]).

Definition addInt (name : string) : M SizedColumnTypes unit :=
  modify (fun cols => cols ++ [IntColumn name]).

(** The decimal primitives of the host that the aggregate calls. *)
Class VNumeric : Type := {
  numeric : Type;
  (** [setZero()] *)
  setZero : numeric;
  (** [x.accumulate(&y)]: the new content of [x] *)
  accumulate : numeric -> numeric -> numeric;
  (** a fresh value of the given precision and scale, then [copy(n)] *)
  copy : Z -> Z -> Z -> numeric;
  (** [out.div(&a, &b)]: the new content of [out] *)
  div : numeric -> numeric -> numeric
}.

(** The contract of [accumulate] that merging in any order relies on. *)
Class VNumericLaws (N : VNumeric) : Prop := {
  accumulate_comm : forall x y : numeric, accumulate x y = accumulate y x;
  accumulate_assoc : forall x y z : numeric,
      accumulate (accumulate x y) z = accumulate x (accumulate y z);
  accumulate_zero : forall x : numeric, accumulate x setZero = x
}.

(** Modelled from the spec: the host's big-decimal arithmetic is absent from
    the repository.  A decimal is its unscaled integer at the scale of the
    sum and addition is exact.  [copy] keeps the integer whatever the shape,
    and [div] is the truncated quotient of the two integers: the shape of the
    result slot, at which the host divides, is not modelled, so a quotient
    that is not exact differs from the host's.  The instance only serves to
    instantiate the theorems, which are all stated for any [VNumeric]. *)
Definition ZNumeric : VNumeric := {|
  numeric := Z;
  setZero := 0;
  accumulate := Z.add;
  copy := fun _ _ n => n;
  div := Z.quot
|}.

(* ------------------------------------------------------------------------- *)
(** ** The digit-counting loop of [terminate]

<<
    while (tmp > 0) { tmp /= 10; digitsN++; }
>>
    The loop terminates because the binary length of [tmp] decreases. *)

Definition bit_length (tmp : Z) : nat := Z.to_nat (Z.log2_up (tmp + 1)).

Equations? digits_loop (tmp digitsN : Z) : Z by wf (bit_length tmp) lt :=
  digits_loop tmp digitsN with Z_lt_dec 0 tmp := {
    | left _ => digits_loop (tmp / 10) (int32 (digitsN + 1))
    | right _ => digitsN }.
Proof.
  unfold bit_length.
  assert (Hq : 0 <= tmp / 10) by (apply Z.div_pos; lia).
  assert (H2 : 2 * (tmp / 10 + 1) <= tmp + 1).
  { pose proof (Z.mul_div_le tmp 10 ltac:(lia)). lia. }
  assert (Hd := Z.log2_up_double (tmp / 10 + 1) ltac:(lia)).
  assert (Hm := Z.log2_up_le_mono _ _ H2).
  pose proof (Z.log2_up_nonneg (tmp / 10 + 1)).
  lia.
Qed.

(** [d] is the number of base-10 digits of [n]. *)
Definition decimalDigitCount (n d : Z) : Prop :=
  1 <= d /\ 10 ^ (d - 1) <= n < 10 ^ d.

(* ------------------------------------------------------------------------- *)
(** ** The aggregate: [class ExactAvg] *)

Section ExactAvg.

Context {N : VNumeric}.

(** The intermediate state: columns 0 to 3 of an [IntermediateAggs]
    ("sum", "cnt", "p_in", "s_in"). *)
Record IntermediateAggs : Type := {
  aggs_sum : numeric;
  aggs_cnt : Z;
  aggs_p_in : Z;
  aggs_s_in : Z
}.

Definition set_sum (v : numeric) (a : IntermediateAggs) : IntermediateAggs :=
  {| aggs_sum := v; aggs_cnt := aggs_cnt a;
     aggs_p_in := aggs_p_in a; aggs_s_in := aggs_s_in a |}.
Definition set_cnt (v : Z) (a : IntermediateAggs) : IntermediateAggs :=
  {| aggs_sum := aggs_sum a; aggs_cnt := v;
     aggs_p_in := aggs_p_in a; aggs_s_in := aggs_s_in a |}.
Definition set_p_in (v : Z) (a : IntermediateAggs) : IntermediateAggs :=
  {| aggs_sum := aggs_sum a; aggs_cnt := aggs_cnt a;
     aggs_p_in := v; aggs_s_in := aggs_s_in a |}.
Definition set_s_in (v : Z) (a : IntermediateAggs) : IntermediateAggs :=
  {| aggs_sum := aggs_sum a; aggs_cnt := aggs_cnt a;
     aggs_p_in := aggs_p_in a; aggs_s_in := v |}.

(** *** initAggregate *)

Definition initAggregate : M IntermediateAggs unit :=
  modify (set_sum setZero) ;;
  modify (set_cnt 0) ;;
  modify (set_p_in 0) ;;
  modify (set_s_in 0).

(** *** aggregate *)

(** The rows of a [BlockReader]: the current one and those [next()]
    reaches; a row is the input value, or nothing when it is null. *)
Definition BlockReader : Type := option numeric * list (option numeric).

(** On the first call, record the input NUMERIC(p_in, s_in). *)
Definition record_input_type (inType : VerticaType) : M IntermediateAggs unit :=
  a <- get ;;
  if aggs_p_in a =? 0 then
    when (negb (isNumeric inType)) ErrNotNumeric ;;
    let p_in := getNumericPrecision inType in
    let s_in := getNumericScale inType in
    when ((p_in <=? 0) || (p_in >? MAX_NUMERIC_PRECISION))
         (ErrInvalidInputPrecision p_in) ;;
    modify (set_p_in p_in) ;;
    modify (set_s_in s_in)
  else ret tt.

(** The body of the row loop. *)
Definition aggregate_row (input : option numeric) : M IntermediateAggs unit :=
  match input with
  | Some v =>
      modify (fun a => set_sum (accumulate (aggs_sum a) v) a) ;;
      modify (fun a => set_cnt (int64 (aggs_cnt a + 1)) a)
  | None => ret tt
  end.

Fixpoint aggregate_rows (rows : list (option numeric)) : M IntermediateAggs unit :=
  match rows with
  | [] => ret tt
  | input :: rows' => aggregate_row input ;; aggregate_rows rows'
  end.

Definition aggregate (inType : VerticaType) (argReader : BlockReader)
  : M IntermediateAggs unit :=
  record_input_type inType ;;
  aggregate_row (fst argReader) ;;
  aggregate_rows (snd argReader).

(** *** combine *)

(** The body of the loop over the other partial aggregates. *)
Definition combine_one (other : IntermediateAggs) : M IntermediateAggs unit :=
  modify (fun a => set_sum (accumulate (aggs_sum a) (aggs_sum other)) a) ;;
  modify (fun a => set_cnt (int64 (aggs_cnt a + aggs_cnt other)) a) ;;
  modify (fun a => if aggs_p_in other >? aggs_p_in a
                   then set_p_in (aggs_p_in other) a else a) ;;
  modify (fun a => if aggs_s_in other >? aggs_s_in a
                   then set_s_in (aggs_s_in other) a else a).

Fixpoint combine_rest (others : list IntermediateAggs) : M IntermediateAggs unit :=
  match others with
  | [] => ret tt
  | other :: others' => combine_one other ;; combine_rest others'
  end.

(** A [MultipleIntermediateAggs]: the current one and those [next()]
    reaches. *)
Definition MultipleIntermediateAggs : Type :=
  (IntermediateAggs * list IntermediateAggs)%type.

Definition combine (aggsOther : MultipleIntermediateAggs)
  : M IntermediateAggs unit :=
  combine_one (fst aggsOther) ;;
  combine_rest (snd aggsOther).

(** *** terminate *)

(** The result slot [resWriter.getNumericRef(0)]. *)
Inductive OutCell : Type :=
| Unwritten
| OutNull
| OutValue (v : numeric).

(** What [terminate] has access to. *)
Record TerminateStore : Type := {
  aggs : IntermediateAggs;
  resWriter : OutCell
}.

Definition set_out (o : OutCell) (st : TerminateStore) : TerminateStore :=
  {| aggs := aggs st; resWriter := o |}.

Definition terminate (sumType : VerticaType) : M TerminateStore unit :=
  st <- get ;;
  let sum := aggs_sum (aggs st) in
  let rowCount := aggs_cnt (aggs st) in
  let p_in_stored := aggs_p_in (aggs st) in
  let s_in_stored := aggs_s_in (aggs st) in
  if rowCount =? 0 then
    modify (set_out OutNull)
  else
    when (s_in_stored <? 0) (ErrStoredScale s_in_stored) ;;
    when ((p_in_stored <=? 0) || (p_in_stored >? MAX_NUMERIC_PRECISION))
         (ErrStoredPrecision p_in_stored) ;;
    when (rowCount <? 0) (ErrNegativeRowCount rowCount) ;;
    let digitsN := digits_loop rowCount 0 in
    when (digitsN =? 0) (ErrZeroDigitCount rowCount) ;;
    let p_in := int32 p_in_stored in
    let p_needed := int32 (p_in + digitsN) in
    when (p_needed >? MAX_NUMERIC_PRECISION)
         (ErrPrecisionExceeded p_needed p_in digitsN rowCount
                               MAX_NUMERIC_PRECISION) ;;
    let cntNumeric :=
      copy (getNumericPrecision sumType) (getNumericScale sumType) rowCount in
    modify (set_out (OutValue (div sum cntNumeric))).

(** *** The four phases as the host drives them *)

(** The state of a group that starts. *)
Definition initialize (a0 : IntermediateAggs) : IntermediateAggs :=
  fst (initAggregate a0).

(** [aggregate] on a block of one row. *)
Definition accumulate_value (inType : VerticaType) (value : option numeric)
  : M IntermediateAggs unit :=
  aggregate inType (value, []).

(** [combine] with one other partial state; it cannot throw. *)
Definition merge (a b : IntermediateAggs) : IntermediateAggs :=
  fst (combine (b, []) a).

(** How a call of [terminate] ends. *)
Inductive Outcome : Type :=
| Returned (out : OutCell)
| Raised (e : error).

Definition finalize (sumType : VerticaType) (a : IntermediateAggs) : Outcome :=
  match terminate sumType {| aggs := a; resWriter := Unwritten |} with
  | (st, Ok _) => Returned (resWriter st)
  | (_, Throw e) => Raised e
  end.

(** Partial states merged pairwise in some tree shape. *)
Inductive MergeTree : Type :=
| Partial (a : IntermediateAggs)
| Merged (l r : MergeTree).

Fixpoint merge_tree (t : MergeTree) : IntermediateAggs :=
  match t with
  | Partial a => a
  | Merged l r => merge (merge_tree l) (merge_tree r)
  end.

Fixpoint partials (t : MergeTree) : list IntermediateAggs :=
  match t with
  | Partial a => [a]
  | Merged l r => partials l ++ partials r
  end.

(** The states the host can build: a group starts, blocks of rows are
    aggregated (a call that throws leaves the state as it was), partial
    states are combined. *)
Inductive reachable : IntermediateAggs -> Prop :=
| reach_init : forall a0, reachable (initialize a0)
| reach_aggregate : forall a inType argReader,
    reachable a ->
    reachable (fst (aggregate inType argReader a))
| reach_combine : forall a other others,
    reachable a ->
    (forall o, In o (other :: others) -> reachable o) ->
    reachable (fst (combine (other, others) a)).

(** What the body of the row loop makes of a state: a null changes nothing,
    a value is added and counted. *)
Definition add_row (input : option numeric) (a : IntermediateAggs)
  : IntermediateAggs :=
  match input with
  | Some v =>
      {| aggs_sum := accumulate (aggs_sum a) v;
         aggs_cnt := int64 (aggs_cnt a + 1);
         aggs_p_in := aggs_p_in a; aggs_s_in := aggs_s_in a |}
  | None => a
  end.

(** The invariant of the stored precision: either nothing was recorded, and
    then nothing was counted, or the recorded precision is a legal one. *)
Definition precision_recorded (a : IntermediateAggs) : Prop :=
  (aggs_p_in a = 0 /\ aggs_cnt a = 0) \/ 1 <= aggs_p_in a <= 1024.

End ExactAvg.

(** A state over the integer decimals of [ZNumeric]. *)
Definition ZAggs (sum cnt p_in s_in : Z) : @IntermediateAggs ZNumeric :=
  @Build_IntermediateAggs ZNumeric sum cnt p_in s_in.

(* ------------------------------------------------------------------------- *)
(** ** The factory: [class ExactAvgFactory] *)

Definition getReturnType (inputTypes : list VerticaType)
  : M SizedColumnTypes unit :=
  match inputTypes with
  | [inType] =>
      when (negb (isNumeric inType)) ErrNotNumeric ;;
      let p_in := getNumericPrecision inType in
      let s_in := getNumericScale inType in
      when ((p_in <=? 0) || (p_in >? MAX_NUMERIC_PRECISION))
           (ErrInvalidInputPrecision p_in) ;;
      let p_out := int32 (p_in + 5) in
      let p_out := if p_out >? MAX_NUMERIC_PRECISION
                   then MAX_NUMERIC_PRECISION else p_out in
      let s_out := int32 (s_in + 5) in
      let s_out := if s_out >? p_out then p_out else s_out in
      let s_out := if s_out <? 0 then 0 else s_out in
      addNumeric p_out s_out "exact_avg"
  | _ => vt_report_error ErrArgumentCount
  end.

Definition getIntermediateTypes (inputTypes : list VerticaType)
  : M SizedColumnTypes unit :=
  match inputTypes with
  | [inType] =>
      when (negb (isNumeric inType)) ErrNotNumeric ;;
      let p_in := getNumericPrecision inType in
      let s_in := getNumericScale inType in
      when ((p_in <=? 0) || (p_in >? MAX_NUMERIC_PRECISION))
           (ErrInvalidInputPrecision p_in) ;;
      let extra_digits_for_rows := 19 in
      let p_sum := int32 (p_in + extra_digits_for_rows) in
      let p_sum := if p_sum >? MAX_NUMERIC_PRECISION
                   then MAX_NUMERIC_PRECISION else p_sum in
      let s_sum := s_in in
      let s_sum := if s_sum >? p_sum then p_sum else s_sum in
      let s_sum := if s_sum <? 0 then 0 else s_sum in
      addNumeric p_sum s_sum "sum" ;;
      addInt "cnt" ;;
      addInt "p_in" ;;
      addInt "s_in"
  | _ => vt_report_error ErrArgumentCount
  end.

(** [clamp x lo hi]: [x] brought into [[lo, hi]]. *)
Definition clamp (x lo hi : Z) : Z := Z.max lo (Z.min x hi).

(* ------------------------------------------------------------------------- *)
(** ** Blocks of rows and one-column groups *)

Section Protocol.

Context {N : VNumeric}.

(** The values of the rows that are not null, in row order. *)
Fixpoint non_null_values (rows : list (option numeric)) : list numeric :=
  match rows with
  | [] => []
  | Some v :: rows' => v :: non_null_values rows'
  | None :: rows' => non_null_values rows'
  end.

(** All the rows of a block. *)
Definition block_rows (argReader : BlockReader) : list (option numeric) :=
  fst argReader :: snd argReader.

(** The block that reads the rows of [r1], then those of [r2]. *)
Definition block_append (r1 r2 : BlockReader) : BlockReader :=
  (fst r1, snd r1 ++ fst r2 :: snd r2).

(** The states of a group whose every block comes from the one input column
    of type [inType]. *)
Inductive reachable_from (inType : VerticaType) : IntermediateAggs -> Prop :=
| from_init : forall a0, reachable_from inType (initialize a0)
| from_aggregate : forall a argReader,
    reachable_from inType a ->
    reachable_from inType (fst (aggregate inType argReader a))
| from_combine : forall a other others,
    reachable_from inType a ->
    (forall o, In o (other :: others) -> reachable_from inType o) ->
    reachable_from inType (fst (combine (other, others) a)).

End Protocol.

(* ------------------------------------------------------------------------- *)
(** ** Machine integers: facts *)

Lemma wrap_small (w z : Z) :
  0 < w -> - 2 ^ (w - 1) <= z < 2 ^ (w - 1) -> wrap w z = z.
Proof.
  intros Hw Hz. unfold wrap.
  assert (Hp : 2 ^ w = 2 * 2 ^ (w - 1)).
  { replace w with (1 + (w - 1)) at 1 by lia.
    rewrite Z.pow_add_r by lia. reflexivity. }
  rewrite Z.mod_small by lia. lia.
Qed.

Lemma int32_small (z : Z) : in_int32 z -> int32 z = z.
Proof.
  unfold in_int32, INT32_MAX, int32. intros H.
  apply wrap_small; [lia|]. change (32 - 1) with 31. lia.
Qed.

Lemma int64_small (z : Z) : in_int64 z -> int64 z = z.
Proof.
  unfold in_int64, INT64_MAX, int64. intros H.
  apply wrap_small; [lia|]. change (64 - 1) with 63. lia.
Qed.

Lemma wrap_add_l (w a b : Z) : wrap w (wrap w a + b) = wrap w (a + b).
Proof.
  unfold wrap. f_equal.
  replace ((a + 2 ^ (w - 1)) mod 2 ^ w - 2 ^ (w - 1) + b + 2 ^ (w - 1))
    with ((a + 2 ^ (w - 1)) mod 2 ^ w + b) by lia.
  rewrite Zplus_mod_idemp_l. f_equal. lia.
Qed.

Lemma int64_add_comm (a b : Z) : int64 (a + b) = int64 (b + a).
Proof. now rewrite Z.add_comm. Qed.

Lemma int64_add_assoc (a b c : Z) :
  int64 (int64 (a + b) + c) = int64 (a + int64 (b + c)).
Proof.
  unfold int64. rewrite wrap_add_l.
  rewrite (Z.add_comm a (wrap 64 (b + c))), wrap_add_l.
  f_equal. lia.
Qed.

(* ------------------------------------------------------------------------- *)
(** ** The digit-counting loop: facts *)

(** The loop equation of the [while]. *)
Lemma digits_loop_step (tmp digitsN : Z) :
  digits_loop tmp digitsN =
  if 0 <? tmp then digits_loop (tmp / 10) (int32 (digitsN + 1)) else digitsN.
Proof.
  rewrite digits_loop_equation_1.
  destruct (Z_lt_dec 0 tmp) as [H | H]; cbn.
  - apply Z.ltb_lt in H. now rewrite H.
  - apply Z.ltb_nlt in H. now rewrite H.
Qed.

Lemma digits_loop_nonpos (tmp digitsN : Z) :
  tmp <= 0 -> digits_loop tmp digitsN = digitsN.
Proof.
  intros H. rewrite digits_loop_step.
  destruct (0 <? tmp) eqn:E; [apply Z.ltb_lt in E; lia | reflexivity].
Qed.

(** Below [10 ^ k] the loop adds the number of decimal digits of [tmp], as
    long as the [int32] counter has room for [k] increments. *)
Lemma digits_loop_count (k : nat) :
  forall tmp digitsN,
    0 <= tmp < 10 ^ Z.of_nat k ->
    0 <= digitsN -> digitsN + Z.of_nat k <= INT32_MAX ->
    exists d, 0 <= d <= Z.of_nat k /\
              digits_loop tmp digitsN = digitsN + d /\
              (tmp = 0 -> d = 0) /\
              (0 < tmp -> decimalDigitCount tmp d).
Proof.
  induction k as [|k IH]; intros tmp digitsN Htmp Hd Hroom.
  - exists 0. change (10 ^ Z.of_nat 0) with 1 in Htmp.
    rewrite digits_loop_nonpos by lia. repeat split; lia.
  - destruct (Z.eq_dec tmp 0) as [-> | Hnz].
    + exists 0. rewrite digits_loop_nonpos by lia. repeat split; lia.
    + rewrite digits_loop_step.
      assert (Hpos : 0 < tmp) by lia.
      apply Z.ltb_lt in Hpos as Hb. rewrite Hb.
      rewrite Nat2Z.inj_succ, Z.pow_succ_r in Htmp by lia.
      assert (Hq : 0 <= tmp / 10 < 10 ^ Z.of_nat k).
      { split; [apply Z.div_pos; lia|].
        apply Z.div_lt_upper_bound; lia. }
      unfold INT32_MAX in *.
      rewrite int32_small by (unfold in_int32, INT32_MAX; lia).
      destruct (IH (tmp / 10) (digitsN + 1) Hq ltac:(lia) ltac:(lia))
        as (d & Hdk & Heq & Hz & Hp).
      exists (d + 1). split; [lia|]. split; [lia|]. split; [lia|].
      intros _. unfold decimalDigitCount.
      replace (d + 1 - 1) with d by lia.
      pose proof (Z.div_mod tmp 10 ltac:(lia)) as Hdm.
      pose proof (Z.mod_pos_bound tmp 10 ltac:(lia)) as Hmb.
      destruct (Z.eq_dec (tmp / 10) 0) as [Hq0 | Hq0].
      * rewrite (Hz Hq0). cbn. lia.
      * destruct (Hp ltac:(lia)) as (Hd1 & Hlo & Hhi).
        assert (Hd10 : 10 ^ d = 10 * 10 ^ (d - 1)).
        { rewrite <- Z.pow_succ_r by lia. f_equal. lia. }
        assert (HS10 : 10 ^ (d + 1) = 10 * 10 ^ d).
        { rewrite <- Z.pow_succ_r by lia. f_equal. }
        lia.
Qed.

(** The examples of the source: 1 has 1 digit, 10 has 2, 12345 has 5; and
    the largest row counter has 19. *)
Example digits_loop_examples :
  digits_loop 1 0 = 1 /\ digits_loop 10 0 = 2 /\ digits_loop 12345 0 = 5 /\
  digits_loop INT64_MAX 0 = 19.
Proof. repeat split; reflexivity. Qed.

(** The number of decimal digits is unique. *)
Lemma decimalDigitCount_unique (n d d' : Z) :
  decimalDigitCount n d -> decimalDigitCount n d' -> d = d'.
Proof.
  unfold decimalDigitCount. intros (H1 & Hlo & Hhi) (H1' & Hlo' & Hhi').
  destruct (Z.lt_trichotomy d d') as [Hlt | [Heq | Hgt]]; [|assumption|].
  - exfalso.
    assert (10 ^ d <= 10 ^ (d' - 1)) by (apply Z.pow_le_mono_r; lia). lia.
  - exfalso.
    assert (10 ^ d' <= 10 ^ (d - 1)) by (apply Z.pow_le_mono_r; lia). lia.
Qed.

(** On a positive [vint] the loop of [terminate] counts the decimal digits,
    of which there are at most 19. *)
Lemma digits_loop_vint (rowCount : Z) :
  0 < rowCount <= INT64_MAX ->
  decimalDigitCount rowCount (digits_loop rowCount 0) /\
  digits_loop rowCount 0 <= 19.
Proof.
  intros H.
  destruct (digits_loop_count 19 rowCount 0) as (d & Hd & Heq & _ & Hp).
  - unfold INT64_MAX in H. change (10 ^ Z.of_nat 19) with 10000000000000000000.
    change (2 ^ 63) with 9223372036854775808 in H. lia.
  - lia.
  - unfold INT32_MAX. change (2 ^ 31) with 2147483648. lia.
  - rewrite Heq. cbn. split; [apply Hp; lia | lia].
Qed.

(* ------------------------------------------------------------------------- *)
(** ** The planner *)

(** Case analysis on every comparison of the goal. *)
Ltac compare_cases :=
  repeat match goal with
    | |- context [?a >? ?b] => destruct (Z.gtb_spec a b)
    | |- context [?a <? ?b] => destruct (Z.ltb_spec a b)
    | |- context [?a <=? ?b] => destruct (Z.leb_spec a b)
    | |- context [?a =? ?b] => destruct (Z.eqb_spec a b)
    end.

Ltac run_callback :=
  cbv [bind when ret get modify vt_report_error addNumeric addInt
       negb orb fst snd isNumeric getNumericPrecision getNumericScale NUMERIC
       MAX_NUMERIC_PRECISION].

(** An input precision outside [[1, 1024]] makes both planner callbacks
    throw, whatever the scale, and leaves the column list untouched. *)
Lemma planner_invalid_precision (p_in s_in : Z) (cols : SizedColumnTypes) :
  p_in <= 0 \/ 1024 < p_in ->
  getReturnType [NUMERIC p_in s_in] cols
    = (cols, Throw (ErrInvalidInputPrecision p_in)) /\
  getIntermediateTypes [NUMERIC p_in s_in] cols
    = (cols, Throw (ErrInvalidInputPrecision p_in)).
Proof.
  intros H. unfold getReturnType, getIntermediateTypes. run_callback.
  split; compare_cases; try reflexivity; lia.
Qed.

(** The two idioms of the planner. *)
Lemma cap_is_min (x m : Z) : (if x >? m then m else x) = Z.min m x.
Proof. compare_cases; lia. Qed.

Lemma cap_floor_is_clamp (x hi : Z) :
  0 <= hi ->
  (if (if x >? hi then hi else x) <? 0 then 0
   else if x >? hi then hi else x) = clamp x 0 hi.
Proof. intros H. unfold clamp. compare_cases; lia. Qed.

(** With a precision in range the planner accepts every scale and clamps
    it. *)
Lemma getReturnType_clamps (p_in s_in : Z) (cols : SizedColumnTypes) :
  1 <= p_in <= 1024 -> in_int32 (s_in + 5) ->
  getReturnType [NUMERIC p_in s_in] cols
    = (cols ++ [NumericColumn (Z.min 1024 (p_in + 5))
                              (clamp (s_in + 5) 0 (Z.min 1024 (p_in + 5)))
                              "exact_avg"], Ok tt).
Proof.
  intros Hp Hs. unfold getReturnType. run_callback.
  rewrite (int32_small (p_in + 5))
    by (unfold in_int32, INT32_MAX; change (2 ^ 31) with 2147483648; lia).
  rewrite (int32_small (s_in + 5)) by assumption.
  rewrite cap_is_min, cap_floor_is_clamp by lia.
  compare_cases; try lia; reflexivity.
Qed.

(** [getReturnType] on any scale, the 32-bit addition left as it is. *)
Lemma getReturnType_any_scale (p_in s_in : Z) (cols : SizedColumnTypes) :
  1 <= p_in <= 1024 ->
  getReturnType [NUMERIC p_in s_in] cols
    = (cols ++ [NumericColumn (Z.min 1024 (p_in + 5))
                              (clamp (int32 (s_in + 5)) 0 (Z.min 1024 (p_in + 5)))
                              "exact_avg"], Ok tt).
Proof.
  intros Hp. unfold getReturnType. run_callback.
  rewrite (int32_small (p_in + 5))
    by (unfold in_int32, INT32_MAX; change (2 ^ 31) with 2147483648; lia).
  rewrite cap_is_min, cap_floor_is_clamp by lia.
  compare_cases; try lia; reflexivity.
Qed.

Lemma getIntermediateTypes_clamps (p_in s_in : Z) (cols : SizedColumnTypes) :
  1 <= p_in <= 1024 ->
  getIntermediateTypes [NUMERIC p_in s_in] cols
    = ((((cols ++ [NumericColumn (Z.min 1024 (p_in + 19))
                                 (clamp s_in 0 (Z.min 1024 (p_in + 19)))
                                 "sum"])
           ++ [IntColumn "cnt"]) ++ [IntColumn "p_in"]) ++ [IntColumn "s_in"],
       Ok tt).
Proof.
  intros Hp. unfold getIntermediateTypes. run_callback.
  rewrite (int32_small (p_in + 19))
    by (unfold in_int32, INT32_MAX; change (2 ^ 31) with 2147483648; lia).
  rewrite cap_is_min, cap_floor_is_clamp by lia.
  compare_cases; try lia; reflexivity.
Qed.

(** C2. For an input shape with [p_in] in [[1, 1024]] and [s_in] in
    [[0, p_in]], the intermediate columns the planner declares are the sum
    at NUMERIC(p_sum, s_sum) with [p_sum = min(1024, p_in + 19)] and
    [s_sum = clamp(s_in, 0, p_sum)], then the three integer columns; and the
    19 guard digits are the decimal length of the largest row counter
    (2^63 - 1), which bounds the digit count of every row counter. *)
Theorem intermediate_sum_shape (p_in s_in : Z) :
  1 <= p_in <= 1024 -> 0 <= s_in <= p_in ->
  (let p_sum := Z.min 1024 (p_in + 19) in
   let s_sum := clamp s_in 0 p_sum in
   getIntermediateTypes [NUMERIC p_in s_in] []
     = ([NumericColumn p_sum s_sum "sum";
         IntColumn "cnt"; IntColumn "p_in"; IntColumn "s_in"], Ok tt)) /\
  decimalDigitCount INT64_MAX 19 /\
  (forall rowCount, 0 < rowCount <= INT64_MAX -> digits_loop rowCount 0 <= 19).
Proof.
  intros Hp Hs. split; [|split].
  - cbv zeta. now rewrite getIntermediateTypes_clamps.
  - unfold decimalDigitCount, INT64_MAX. cbn. lia.
  - intros n Hn. now apply digits_loop_vint.
Qed.

Lemma intermediate_sum_shape_witness :
  getIntermediateTypes [NUMERIC 75 2] []
    = ([NumericColumn 94 2 "sum";
        IntColumn "cnt"; IntColumn "p_in"; IntColumn "s_in"], Ok tt).
Proof.
  exact (proj1 (intermediate_sum_shape 75 2 ltac:(lia) ltac:(lia))).
Defined.

(** C3. For an input shape with [p_in] in [[1, 1024]] and [s_in] in
    [[0, p_in]], the planner declares the output NUMERIC(p_out, s_out) with
    [p_out = min(1024, p_in + 5)] and [s_out = min(p_out, s_in + 5)]. *)
Theorem output_shape (p_in s_in : Z) :
  1 <= p_in <= 1024 -> 0 <= s_in <= p_in ->
  let p_out := Z.min 1024 (p_in + 5) in
  let s_out := Z.min p_out (s_in + 5) in
  getReturnType [NUMERIC p_in s_in] []
    = ([NumericColumn p_out s_out "exact_avg"], Ok tt).
Proof.
  intros Hp Hs. cbv zeta.
  rewrite getReturnType_clamps
    by (unfold in_int32, INT32_MAX; change (2 ^ 31) with 2147483648; lia).
  replace (clamp (s_in + 5) 0 (Z.min 1024 (p_in + 5)))
    with (Z.min (Z.min 1024 (p_in + 5)) (s_in + 5)) by (unfold clamp; lia).
  reflexivity.
Qed.

Lemma output_shape_witness :
  getReturnType [NUMERIC 1022 1022] []
    = ([NumericColumn 1024 1024 "exact_avg"], Ok tt).
Proof.
  exact (output_shape 1022 1022 ltac:(lia) ltac:(lia)).
Defined.

(** C4, as the specification has it, fails: a scale above the precision, or
    a negative one, is accepted by both planner callbacks. *)
Lemma planner_accepts_scale_out_of_range :
  ~ (0 <= 11 <= 10) /\
  getReturnType [NUMERIC 10 11] []
    = ([NumericColumn 15 15 "exact_avg"], Ok tt) /\
  getIntermediateTypes [NUMERIC 10 11] []
    = ([NumericColumn 29 11 "sum";
        IntColumn "cnt"; IntColumn "p_in"; IntColumn "s_in"], Ok tt) /\
  ~ (0 <= -1 <= 10) /\
  getReturnType [NUMERIC 10 (-1)] []
    = ([NumericColumn 15 4 "exact_avg"], Ok tt) /\
  getIntermediateTypes [NUMERIC 10 (-1)] []
    = ([NumericColumn 29 0 "sum";
        IntColumn "cnt"; IntColumn "p_in"; IntColumn "s_in"], Ok tt).
Proof.
  repeat split; try reflexivity; lia.
Qed.

(** C4, amended. The planner throws an [InvalidInputShape] error exactly for
    a precision outside [[1, 1024]]; with a precision in range it rejects no
    scale: the scale is clamped, [s_sum = clamp(s_in, 0, p_sum)] and
    [s_out = clamp(int32(s_in + 5), 0, p_out)], the addition being the 32-bit
    one of the source. *)
Theorem planner_rejects_precision_only (p_in s_in : Z) :
  (p_in <= 0 \/ 1024 < p_in ->
   getReturnType [NUMERIC p_in s_in] []
     = ([], Throw (ErrInvalidInputPrecision p_in)) /\
   getIntermediateTypes [NUMERIC p_in s_in] []
     = ([], Throw (ErrInvalidInputPrecision p_in)) /\
   error_kind (ErrInvalidInputPrecision p_in) = InvalidInputShape) /\
  (1 <= p_in <= 1024 ->
   let p_out := Z.min 1024 (p_in + 5) in
   let p_sum := Z.min 1024 (p_in + 19) in
   getReturnType [NUMERIC p_in s_in] []
     = ([NumericColumn p_out (clamp (int32 (s_in + 5)) 0 p_out) "exact_avg"],
        Ok tt) /\
   getIntermediateTypes [NUMERIC p_in s_in] []
     = ([NumericColumn p_sum (clamp s_in 0 p_sum) "sum";
         IntColumn "cnt"; IntColumn "p_in"; IntColumn "s_in"], Ok tt)).
Proof.
  split.
  - intros Hp.
    destruct (planner_invalid_precision p_in s_in [] Hp) as [H1 H2].
    repeat split; assumption.
  - intros Hp. cbv zeta. split.
    + now rewrite getReturnType_any_scale.
    + now rewrite getIntermediateTypes_clamps.
Qed.

Lemma planner_rejects_precision_only_witness :
  (getReturnType [NUMERIC 1025 3] []
     = ([], Throw (ErrInvalidInputPrecision 1025)) /\
   getIntermediateTypes [NUMERIC 1025 3] []
     = ([], Throw (ErrInvalidInputPrecision 1025)) /\
   error_kind (ErrInvalidInputPrecision 1025) = InvalidInputShape) /\
  (getReturnType [NUMERIC 10 11] []
     = ([NumericColumn 15 15 "exact_avg"], Ok tt) /\
   getIntermediateTypes [NUMERIC 10 11] []
     = ([NumericColumn 29 11 "sum";
         IntColumn "cnt"; IntColumn "p_in"; IntColumn "s_in"], Ok tt)) /\
  (getReturnType [NUMERIC 10 2147483647] []
     = ([NumericColumn 15 0 "exact_avg"], Ok tt) /\
   getIntermediateTypes [NUMERIC 10 2147483647] []
     = ([NumericColumn 29 29 "sum";
         IntColumn "cnt"; IntColumn "p_in"; IntColumn "s_in"], Ok tt)).
Proof.
  split; [|split].
  - apply (planner_rejects_precision_only 1025 3). lia.
  - apply (planner_rejects_precision_only 10 11). lia.
  - apply (planner_rejects_precision_only 10 2147483647). lia.
Defined.

(* ------------------------------------------------------------------------- *)
(** ** The aggregate: what each callback computes *)

Section Callbacks.

Context {N : VNumeric}.

Lemma initialize_fields (a0 : IntermediateAggs) :
  initialize a0 =
  {| aggs_sum := setZero; aggs_cnt := 0; aggs_p_in := 0; aggs_s_in := 0 |}.
Proof. reflexivity. Qed.

(** [aggregate] either throws before touching the state, or records the
    input type if none is recorded yet. *)
Lemma record_input_type_cases (inType : VerticaType) (a : IntermediateAggs) :
  record_input_type inType a =
  if aggs_p_in a =? 0 then
    if negb (isNumeric inType) then (a, Throw ErrNotNumeric)
    else if (getNumericPrecision inType <=? 0)
            || (getNumericPrecision inType >? MAX_NUMERIC_PRECISION)
         then (a, Throw (ErrInvalidInputPrecision (getNumericPrecision inType)))
         else (set_s_in (getNumericScale inType)
                 (set_p_in (getNumericPrecision inType) a), Ok tt)
  else (a, Ok tt).
Proof.
  unfold record_input_type, bind, get, when, vt_report_error, ret, modify.
  destruct (aggs_p_in a =? 0); [|reflexivity].
  destruct (negb (isNumeric inType)); [reflexivity|].
  destruct ((getNumericPrecision inType <=? 0)
            || (getNumericPrecision inType >? MAX_NUMERIC_PRECISION));
    reflexivity.
Qed.

Lemma aggregate_row_run (input : option numeric) (a : IntermediateAggs) :
  aggregate_row input a = (add_row input a, Ok tt).
Proof. destruct input; reflexivity. Qed.

Lemma aggregate_rows_run (rows : list (option numeric)) :
  forall a, aggregate_rows rows a = (fold_left (fun s r => add_row r s) rows a, Ok tt).
Proof.
  induction rows as [|r rows IH]; intros a; [reflexivity|].
  cbn [aggregate_rows fold_left]. unfold bind.
  rewrite aggregate_row_run. apply IH.
Qed.

Lemma aggregate_run (inType : VerticaType) (argReader : BlockReader)
      (a : IntermediateAggs) :
  aggregate inType argReader a =
  match record_input_type inType a with
  | (a', Ok _) =>
      (fold_left (fun s r => add_row r s) (fst argReader :: snd argReader) a',
       Ok tt)
  | (a', Throw e) => (a', Throw e)
  end.
Proof.
  unfold aggregate, bind.
  destruct (record_input_type inType a) as [a' [[]|e]]; [|reflexivity].
  rewrite aggregate_row_run. cbn [fold_left]. apply aggregate_rows_run.
Qed.

Lemma add_row_shape (input : option numeric) (a : IntermediateAggs) :
  aggs_p_in (add_row input a) = aggs_p_in a /\
  aggs_s_in (add_row input a) = aggs_s_in a.
Proof. destruct input; split; reflexivity. Qed.

Lemma add_rows_shape (rows : list (option numeric)) :
  forall a,
    aggs_p_in (fold_left (fun s r => add_row r s) rows a) = aggs_p_in a /\
    aggs_s_in (fold_left (fun s r => add_row r s) rows a) = aggs_s_in a.
Proof.
  induction rows as [|r rows IH]; intros a; [split; reflexivity|].
  cbn [fold_left]. destruct (IH (add_row r a)) as [Hp Hs].
  destruct (add_row_shape r a) as [Hp' Hs']. split; congruence.
Qed.

Lemma add_null_rows (k : nat) (a : IntermediateAggs) :
  fold_left (fun s r => add_row r s) (repeat None k) a = a.
Proof. induction k as [|k IH]; [reflexivity | exact IH]. Qed.

(** [combine] with one other state, field by field. *)
Lemma merge_fields (a b : IntermediateAggs) :
  merge a b =
  {| aggs_sum := accumulate (aggs_sum a) (aggs_sum b);
     aggs_cnt := int64 (aggs_cnt a + aggs_cnt b);
     aggs_p_in := Z.max (aggs_p_in a) (aggs_p_in b);
     aggs_s_in := Z.max (aggs_s_in a) (aggs_s_in b) |}.
Proof.
  destruct a as [sa ca pa sca], b as [sb cb pb scb].
  cbv [merge combine combine_one combine_rest bind modify ret fst snd
       set_sum set_cnt set_p_in set_s_in
       aggs_sum aggs_cnt aggs_p_in aggs_s_in].
  destruct (Z.gtb_spec pb pa), (Z.gtb_spec scb sca); f_equal; lia.
Qed.

Lemma combine_one_run (other a : IntermediateAggs) :
  combine_one other a = (merge a other, Ok tt).
Proof. reflexivity. Qed.

Lemma combine_rest_run (others : list IntermediateAggs) :
  forall a, combine_rest others a = (fold_left merge others a, Ok tt).
Proof.
  induction others as [|o others IH]; intros a; [reflexivity|].
  cbn [combine_rest fold_left]. unfold bind.
  rewrite combine_one_run. apply IH.
Qed.

(** [combine] cannot throw: it merges the others in, one after the
    other. *)
Lemma combine_run (aggsOther : MultipleIntermediateAggs) (a : IntermediateAggs) :
  combine aggsOther a
  = (fold_left merge (snd aggsOther) (merge a (fst aggsOther)), Ok tt).
Proof.
  unfold combine, bind. rewrite combine_one_run. apply combine_rest_run.
Qed.

(** [terminate], check by check. *)
Lemma terminate_run (sumType : VerticaType) (st : TerminateStore) :
  terminate sumType st =
  let a := aggs st in
  if aggs_cnt a =? 0 then (set_out OutNull st, Ok tt)
  else if aggs_s_in a <? 0 then (st, Throw (ErrStoredScale (aggs_s_in a)))
  else if (aggs_p_in a <=? 0) || (aggs_p_in a >? MAX_NUMERIC_PRECISION)
  then (st, Throw (ErrStoredPrecision (aggs_p_in a)))
  else if aggs_cnt a <? 0 then (st, Throw (ErrNegativeRowCount (aggs_cnt a)))
  else if digits_loop (aggs_cnt a) 0 =? 0
  then (st, Throw (ErrZeroDigitCount (aggs_cnt a)))
  else if int32 (int32 (aggs_p_in a) + digits_loop (aggs_cnt a) 0)
          >? MAX_NUMERIC_PRECISION
  then (st, Throw (ErrPrecisionExceeded
                     (int32 (int32 (aggs_p_in a) + digits_loop (aggs_cnt a) 0))
                     (int32 (aggs_p_in a)) (digits_loop (aggs_cnt a) 0)
                     (aggs_cnt a) MAX_NUMERIC_PRECISION))
  else (set_out (OutValue
                   (div (aggs_sum a)
                        (copy (getNumericPrecision sumType)
                              (getNumericScale sumType) (aggs_cnt a)))) st,
        Ok tt).
Proof.
  unfold terminate, bind, get, when, vt_report_error, ret, modify. cbv zeta.
  destruct (aggs_cnt (aggs st) =? 0); [reflexivity|].
  destruct (aggs_s_in (aggs st) <? 0); [reflexivity|].
  destruct ((aggs_p_in (aggs st) <=? 0)
            || (aggs_p_in (aggs st) >? MAX_NUMERIC_PRECISION)); [reflexivity|].
  destruct (aggs_cnt (aggs st) <? 0); [reflexivity|].
  destruct (digits_loop (aggs_cnt (aggs st)) 0 =? 0); [reflexivity|].
  destruct (int32 (int32 (aggs_p_in (aggs st))
                   + digits_loop (aggs_cnt (aggs st)) 0)
            >? MAX_NUMERIC_PRECISION); reflexivity.
Qed.

(** The same for [finalize]. *)
Lemma finalize_run (sumType : VerticaType) (a : IntermediateAggs) :
  finalize sumType a =
  if aggs_cnt a =? 0 then Returned OutNull
  else if aggs_s_in a <? 0 then Raised (ErrStoredScale (aggs_s_in a))
  else if (aggs_p_in a <=? 0) || (aggs_p_in a >? MAX_NUMERIC_PRECISION)
  then Raised (ErrStoredPrecision (aggs_p_in a))
  else if aggs_cnt a <? 0 then Raised (ErrNegativeRowCount (aggs_cnt a))
  else if digits_loop (aggs_cnt a) 0 =? 0
  then Raised (ErrZeroDigitCount (aggs_cnt a))
  else if int32 (int32 (aggs_p_in a) + digits_loop (aggs_cnt a) 0)
          >? MAX_NUMERIC_PRECISION
  then Raised (ErrPrecisionExceeded
                 (int32 (int32 (aggs_p_in a) + digits_loop (aggs_cnt a) 0))
                 (int32 (aggs_p_in a)) (digits_loop (aggs_cnt a) 0)
                 (aggs_cnt a) MAX_NUMERIC_PRECISION)
  else Returned (OutValue
                   (div (aggs_sum a)
                        (copy (getNumericPrecision sumType)
                              (getNumericScale sumType) (aggs_cnt a)))).
Proof.
  unfold finalize. rewrite terminate_run. cbv zeta.
  cbn [aggs resWriter].
  repeat match goal with
         | |- context [if ?c then _ else _] => destruct c; try reflexivity
         end.
Qed.

End Callbacks.

(* ------------------------------------------------------------------------- *)
(** ** Null handling and the frame of [terminate] *)

Section NullsAndFrame.

Context {N : VNumeric}.

(** C5. [finalize] returns null exactly when the count is zero, whatever
    the stored input precision. *)
Theorem finalize_null_iff_no_rows (sumType : VerticaType) (a : IntermediateAggs) :
  finalize sumType a = Returned OutNull <-> aggs_cnt a = 0.
Proof.
  rewrite finalize_run. split.
  - intros H. destruct (Z.eqb_spec (aggs_cnt a) 0) as [E | E]; [exact E|].
    exfalso.
    repeat match type of H with
           | (if ?c then _ else _) = _ => destruct c
           end; discriminate H.
  - intros H. rewrite H. reflexivity.
Qed.

(** C7. A null input value changes neither the sum nor the count, whether
    [aggregate] records the input type, throws on it, or has recorded it
    before; the same holds for a block of null rows of any length. *)
Theorem null_input_is_noop
        (inType : VerticaType) (a : IntermediateAggs) (k : nat) :
  (let a' := fst (accumulate_value inType None a) in
   aggs_sum a' = aggs_sum a /\ aggs_cnt a' = aggs_cnt a) /\
  (let a' := fst (aggregate inType (None, repeat None k) a) in
   aggs_sum a' = aggs_sum a /\ aggs_cnt a' = aggs_cnt a).
Proof.
  assert (Hblock : forall j,
             let a' := fst (aggregate inType (None, repeat None j) a) in
             aggs_sum a' = aggs_sum a /\ aggs_cnt a' = aggs_cnt a).
  { intros j. cbv zeta. rewrite aggregate_run, record_input_type_cases.
    cbn [fst snd].
    change (None :: repeat None j)
      with (repeat (@None numeric) (S j)).
    repeat match goal with
           | |- context [if ?c then _ else _] => destruct c
           end;
      cbn [fst]; rewrite ?add_null_rows; split; reflexivity. }
  split; [exact (Hblock 0%nat) | exact (Hblock k)].
Qed.

(** C8. [terminate] leaves the aggregation state as it found it, whether it
    writes null, writes a quotient, or throws. *)
Theorem finalize_preserves_state (sumType : VerticaType) (st : TerminateStore) :
  let a' := aggs (fst (terminate sumType st)) in
  a' = aggs st /\
  aggs_sum a' = aggs_sum (aggs st) /\
  aggs_cnt a' = aggs_cnt (aggs st) /\
  aggs_p_in a' = aggs_p_in (aggs st) /\
  aggs_s_in a' = aggs_s_in (aggs st).
Proof.
  cbv zeta.
  assert (H : aggs (fst (terminate sumType st)) = aggs st).
  { rewrite terminate_run. cbv zeta.
    repeat match goal with
           | |- context [if ?c then _ else _] => destruct c
           end; reflexivity. }
  rewrite H. repeat split; reflexivity.
Qed.

(** C10. On a freshly initialized state (count 0, input precision still
    0) [finalize] returns null and throws nothing: the test of the count
    comes before the test of the stored precision, which the same state
    with a count of 1 fails. *)
Theorem finalize_fresh_state_is_null (sumType : VerticaType) (a0 : IntermediateAggs) :
  aggs_cnt (initialize a0) = 0 /\
  aggs_p_in (initialize a0) = 0 /\
  finalize sumType (initialize a0) = Returned OutNull /\
  (forall e, finalize sumType (initialize a0) <> Raised e) /\
  finalize sumType (set_cnt 1 (initialize a0)) = Raised (ErrStoredPrecision 0).
Proof.
  repeat split; try reflexivity.
  intros e H. discriminate H.
Qed.

End NullsAndFrame.

(* ------------------------------------------------------------------------- *)
(** ** The certificate of exactness *)

Section Certificate.

Context {N : VNumeric}.

(** Past the consistency checks, [terminate] decides on
    [p_in + digits(rowCount)] alone. *)
Lemma finalize_certificate (sumType : VerticaType) (a : IntermediateAggs) :
  1 <= aggs_cnt a <= INT64_MAX ->
  1 <= aggs_p_in a <= 1024 ->
  0 <= aggs_s_in a ->
  let n := aggs_cnt a in
  let p := aggs_p_in a in
  let d := digits_loop n 0 in
  decimalDigitCount n d /\
  finalize sumType a =
  if p + d >? 1024
  then Raised (ErrPrecisionExceeded (p + d) p d n 1024)
  else Returned (OutValue
                   (div (aggs_sum a)
                        (copy (getNumericPrecision sumType)
                              (getNumericScale sumType) n))).
Proof.
  intros Hn Hp Hs. cbv zeta.
  destruct (digits_loop_vint (aggs_cnt a) ltac:(lia)) as [Hd Hd19].
  split; [exact Hd|].
  assert (Hd1 : 1 <= digits_loop (aggs_cnt a) 0) by apply Hd.
  rewrite finalize_run. unfold MAX_NUMERIC_PRECISION.
  rewrite (int32_small (aggs_p_in a))
    by (unfold in_int32, INT32_MAX; change (2 ^ 31) with 2147483648; lia).
  rewrite (int32_small (aggs_p_in a + _))
    by (unfold in_int32, INT32_MAX; change (2 ^ 31) with 2147483648; lia).
  destruct (Z.eqb_spec (aggs_cnt a) 0); [lia|].
  destruct (Z.ltb_spec (aggs_s_in a) 0); [lia|].
  destruct (Z.leb_spec (aggs_p_in a) 0); [lia|].
  destruct (Z.gtb_spec (aggs_p_in a) 1024); [lia|].
  destruct (Z.ltb_spec (aggs_cnt a) 0); [lia|].
  destruct (Z.eqb_spec (digits_loop (aggs_cnt a) 0) 0); [lia|].
  reflexivity.
Qed.

End Certificate.

(* ------------------------------------------------------------------------- *)
(** ** The invariant of the stored input precision *)

Section Invariant.

Context {N : VNumeric}.

Lemma precision_recorded_init (a0 : IntermediateAggs) :
  precision_recorded (initialize a0).
Proof. left. split; reflexivity. Qed.

Lemma precision_recorded_aggregate
      (inType : VerticaType) (argReader : BlockReader) (a : IntermediateAggs) :
  precision_recorded a ->
  precision_recorded (fst (aggregate inType argReader a)).
Proof.
  intros Ha. rewrite aggregate_run, record_input_type_cases.
  destruct (Z.eqb_spec (aggs_p_in a) 0) as [Hz | Hnz].
  - destruct (negb (isNumeric inType)); [exact Ha|].
    unfold MAX_NUMERIC_PRECISION.
    destruct (Z.leb_spec (getNumericPrecision inType) 0); [exact Ha|].
    destruct (Z.gtb_spec (getNumericPrecision inType) 1024); [exact Ha|].
    cbn [orb fst]. right.
    match goal with
    | |- context [fold_left ?f ?rows ?s] =>
        destruct (add_rows_shape rows s) as [-> _]
    end.
    cbn. lia.
  - cbn [fst]. right.
    match goal with
    | |- context [fold_left ?f ?rows ?s] =>
        destruct (add_rows_shape rows s) as [-> _]
    end.
    destruct Ha as [[Hp _] | Hp]; [contradiction | exact Hp].
Qed.

Lemma precision_recorded_merge (a b : IntermediateAggs) :
  precision_recorded a -> precision_recorded b ->
  precision_recorded (merge a b).
Proof.
  unfold precision_recorded. intros Ha Hb. rewrite merge_fields.
  cbn [aggs_p_in aggs_cnt].
  destruct Ha as [[Hpa Hca] | Hpa], Hb as [[Hpb Hcb] | Hpb].
  - left. rewrite Hpa, Hpb, Hca, Hcb. split; reflexivity.
  - right. lia.
  - right. lia.
  - right. lia.
Qed.

Lemma precision_recorded_merge_all (others : list IntermediateAggs) :
  forall a,
    precision_recorded a ->
    (forall o, In o others -> precision_recorded o) ->
    precision_recorded (fold_left merge others a).
Proof.
  induction others as [|o others IH]; intros a Ha Hall; [exact Ha|].
  cbn [fold_left]. apply IH.
  - apply precision_recorded_merge; [exact Ha | apply Hall; now left].
  - intros o' Ho'. apply Hall. now right.
Qed.

Lemma reachable_precision_recorded (a : IntermediateAggs) :
  reachable a -> precision_recorded a.
Proof.
  induction 1 as [a0 | a inType argReader _ IH | a other others _ IHa _ IHo].
  - apply precision_recorded_init.
  - now apply precision_recorded_aggregate.
  - rewrite combine_run. cbn [fst snd].
    apply precision_recorded_merge_all.
    + apply precision_recorded_merge; [exact IHa | apply IHo; now left].
    + intros o Ho. apply IHo. now right.
Qed.

(** C9. In every state reachable from [initAggregate] by [aggregate] and
    [combine] calls (with reachable partners) the stored input precision is
    0 or lies in [[1, 1024]], and a positive count implies a stored
    precision of at least 1; so on a reachable state with a positive count
    [terminate] never reports an invalid stored precision. *)
Theorem reachable_stored_precision (sumType : VerticaType) (a : IntermediateAggs) :
  reachable a ->
  (aggs_p_in a = 0 \/ 1 <= aggs_p_in a <= 1024) /\
  (aggs_cnt a > 0 -> aggs_p_in a >= 1) /\
  (aggs_cnt a > 0 ->
   forall v, finalize sumType a <> Raised (ErrStoredPrecision v)).
Proof.
  intros Hr. apply reachable_precision_recorded in Hr.
  assert (Hp : aggs_cnt a > 0 -> 1 <= aggs_p_in a <= 1024).
  { intros Hc. destruct Hr as [[_ Hc0] | Hp]; [lia | exact Hp]. }
  split; [destruct Hr as [[Hp0 _] | Hp1]; [now left | now right]|].
  split; [intros Hc; specialize (Hp Hc); lia|].
  intros Hc v. specialize (Hp Hc). rewrite finalize_run.
  unfold MAX_NUMERIC_PRECISION.
  destruct (Z.leb_spec (aggs_p_in a) 0); [lia|].
  destruct (Z.gtb_spec (aggs_p_in a) 1024); [lia|].
  cbn [orb].
  repeat match goal with
         | |- context [if ?c then _ else _] => destruct c
         end; discriminate.
Qed.

End Invariant.

(** Three rows, one of them null, of a column declared NUMERIC(75, 2), then
    a fresh partial state merged in. *)
Lemma reachable_stored_precision_witness :
  let a := fst (combine (N := ZNumeric)
                  (initialize (N := ZNumeric) (ZAggs 0 0 0 0), [])
                  (fst (aggregate (N := ZNumeric) (NUMERIC 75 2)
                          (Some 150, [None; Some 250])
                          (initialize (N := ZNumeric) (ZAggs 0 0 0 0))))) in
  a = ZAggs 400 2 75 2 /\
  (aggs_p_in a = 0 \/ 1 <= aggs_p_in a <= 1024) /\
  (aggs_cnt a > 0 -> aggs_p_in a >= 1) /\
  (aggs_cnt a > 0 ->
   forall v, finalize (N := ZNumeric) (NUMERIC 94 2) a
             <> Raised (ErrStoredPrecision v)).
Proof.
  cbv zeta. split; [reflexivity|].
  apply (reachable_stored_precision (N := ZNumeric)).
  apply reach_combine.
  - apply reach_aggregate, reach_init.
  - intros o [<- | []]. apply reach_init.
Defined.

(* ------------------------------------------------------------------------- *)
(** ** Merging in any order *)

Section MergeLaws.

Context {N : VNumeric} {L : VNumericLaws N}.

Lemma merge_assoc (a b c : IntermediateAggs) :
  merge a (merge b c) = merge (merge a b) c.
Proof.
  rewrite !merge_fields. cbn [aggs_sum aggs_cnt aggs_p_in aggs_s_in].
  f_equal.
  - symmetry. apply accumulate_assoc.
  - symmetry. apply int64_add_assoc.
  - apply Z.max_assoc.
  - apply Z.max_assoc.
Qed.

Lemma merge_comm (a b : IntermediateAggs) : merge a b = merge b a.
Proof.
  rewrite !merge_fields. f_equal.
  - apply accumulate_comm.
  - apply int64_add_comm.
  - apply Z.max_comm.
  - apply Z.max_comm.
Qed.

(** A fresh state is neutral for the states whose count is a [vint] and
    whose shape fields are not negative. *)
Lemma merge_fresh (a a0 : IntermediateAggs) :
  in_int64 (aggs_cnt a) -> 0 <= aggs_p_in a -> 0 <= aggs_s_in a ->
  merge a (initialize a0) = a.
Proof.
  intros Hc Hp Hs. rewrite merge_fields, initialize_fields.
  cbn [aggs_sum aggs_cnt aggs_p_in aggs_s_in].
  rewrite accumulate_zero, Z.add_0_r, int64_small by exact Hc.
  rewrite !Z.max_l by assumption.
  destruct a; reflexivity.
Qed.

Lemma merge_swap (x a b : IntermediateAggs) :
  merge (merge x a) b = merge (merge x b) a.
Proof.
  rewrite <- !merge_assoc. f_equal. apply merge_comm.
Qed.

Lemma merge_fold_left (l : list IntermediateAggs) :
  forall a b, fold_left merge l (merge a b) = merge a (fold_left merge l b).
Proof.
  induction l as [|x l IH]; intros a b; [reflexivity|].
  cbn [fold_left]. rewrite <- merge_assoc. apply IH.
Qed.

(** The partial states come in any order after the first. *)
Lemma fold_merge_permutation (l l' : list IntermediateAggs) :
  Permutation l l' ->
  forall x, fold_left merge l x = fold_left merge l' x.
Proof.
  induction 1 as [| z l l' _ IH | y z l | l l2 l' _ IH1 _ IH2]; intros x.
  - reflexivity.
  - cbn [fold_left]. apply IH.
  - cbn [fold_left]. now rewrite merge_swap.
  - now rewrite IH1.
Qed.

(** And the first one is no exception. *)
Lemma fold_merge_permutation_head (k k' : list IntermediateAggs) :
  Permutation k k' ->
  forall x l y l', k = x :: l -> k' = y :: l' ->
                   fold_left merge l x = fold_left merge l' y.
Proof.
  induction 1 as [| z k k' Hperm _ | y0 x0 k | k k2 k' H1 IH1 H2 IH2];
    intros x l y l' E E'.
  - discriminate E.
  - inversion E; inversion E'; subst.
    now apply fold_merge_permutation.
  - inversion E; inversion E'; subst.
    cbn [fold_left]. now rewrite merge_comm.
  - destruct k2 as [|z k2].
    + subst k. apply Permutation_sym, Permutation_nil_cons in H1.
      contradiction.
    + rewrite (IH1 x l z k2 E eq_refl). now apply IH2.
Qed.

(** A merge tree computes the left-to-right merge of its partial states. *)
Lemma merge_tree_fold (t : MergeTree) :
  exists x l, partials t = x :: l /\ merge_tree t = fold_left merge l x.
Proof.
  induction t as [a | t1 (x1 & l1 & E1 & M1) t2 (x2 & l2 & E2 & M2)].
  - exists a, []. split; reflexivity.
  - exists x1, (l1 ++ x2 :: l2). cbn [partials merge_tree].
    rewrite E1, E2, M1, M2. split; [reflexivity|].
    rewrite fold_left_app. cbn [fold_left].
    now rewrite merge_fold_left.
Qed.

Lemma merge_tree_permutation (t1 t2 : MergeTree) :
  Permutation (partials t1) (partials t2) -> merge_tree t1 = merge_tree t2.
Proof.
  intros H.
  destruct (merge_tree_fold t1) as (x1 & l1 & E1 & ->).
  destruct (merge_tree_fold t2) as (x2 & l2 & E2 & ->).
  exact (fold_merge_permutation_head _ _ H x1 l1 x2 l2 E1 E2).
Qed.

(** C6. [merge] is associative and commutative on all states: sums are
    accumulated, counts added, the recorded input precision and scale
    combined by maximum; a fresh state is neutral where the shape fields
    are not negative; so two merge trees over the same partial states, in
    any order and any grouping, end in the same state and [finalize] gives
    the same on both. *)
Theorem merge_commutative_monoid (sumType : VerticaType) :
  (forall a b,
      merge a b =
      {| aggs_sum := accumulate (aggs_sum a) (aggs_sum b);
         aggs_cnt := int64 (aggs_cnt a + aggs_cnt b);
         aggs_p_in := Z.max (aggs_p_in a) (aggs_p_in b);
         aggs_s_in := Z.max (aggs_s_in a) (aggs_s_in b) |}) /\
  (forall a b c, merge a (merge b c) = merge (merge a b) c) /\
  (forall a b, merge a b = merge b a) /\
  (forall a a0,
      in_int64 (aggs_cnt a) -> 0 <= aggs_p_in a -> 0 <= aggs_s_in a ->
      merge a (initialize a0) = a) /\
  (forall t1 t2,
      Permutation (partials t1) (partials t2) ->
      merge_tree t1 = merge_tree t2 /\
      finalize sumType (merge_tree t1) = finalize sumType (merge_tree t2)).
Proof.
  split; [exact merge_fields|].
  split; [exact merge_assoc|].
  split; [exact merge_comm|].
  split; [exact merge_fresh|].
  intros t1 t2 H. apply merge_tree_permutation in H.
  split; [exact H | now rewrite H].
Qed.

End MergeLaws.

(** Exact integer addition satisfies the contract of [accumulate]. *)
Lemma ZNumeric_laws : VNumericLaws ZNumeric.
Proof.
  split; cbn; intros; lia.
Qed.

(** Three partial states of a NUMERIC(75, 2) column merged in the three
    shapes of the specification. *)
Lemma merge_commutative_monoid_witness :
  let a := ZAggs 150 1 75 2 in
  let b := ZAggs 250 2 75 2 in
  let c := ZAggs 500 3 75 2 in
  let f := finalize (N := ZNumeric) (NUMERIC 94 2) in
  f (merge (merge a b) c) = f (merge a (merge b c)) /\
  f (merge a (merge b c)) = f (merge (merge b a) c) /\
  f (merge (merge a b) c) = Returned (OutValue (N := ZNumeric) 150).
Proof.
  cbv zeta.
  destruct (merge_commutative_monoid (N := ZNumeric) (L := ZNumeric_laws)
              (NUMERIC 94 2))
    as (_ & Hassoc & Hcomm & _ & Htree).
  split; [|split].
  - now rewrite Hassoc.
  - apply (Htree (Merged (Partial (ZAggs 150 1 75 2))
                         (Merged (Partial (ZAggs 250 2 75 2))
                                 (Partial (ZAggs 500 3 75 2))))
                 (Merged (Merged (Partial (ZAggs 250 2 75 2))
                                 (Partial (ZAggs 150 1 75 2)))
                         (Partial (ZAggs 500 3 75 2)))).
    cbn [partials app]. apply perm_swap.
  - reflexivity.
Defined.


(* ------------------------------------------------------------------------- *)
(** ** More on the planner *)

Lemma int32_range (z : Z) : in_int32 (int32 z).
Proof.
  unfold in_int32, INT32_MAX, int32, wrap. change (32 - 1) with 31.
  pose proof (Z.mod_pos_bound (z + 2 ^ 31) (2 ^ 32) ltac:(lia)) as H.
  change (2 ^ 32) with (2 * 2 ^ 31) in *. lia.
Qed.

Lemma int64_range (z : Z) : in_int64 (int64 z).
Proof.
  unfold in_int64, INT64_MAX, int64, wrap. change (64 - 1) with 63.
  pose proof (Z.mod_pos_bound (z + 2 ^ 63) (2 ^ 64) ltac:(lia)) as H.
  change (2 ^ 64) with (2 * 2 ^ 63) in *. lia.
Qed.

(** X1. Whatever the declared scale, the shapes the planner declares for a
    precision in [[1, 1024]] are legal NUMERIC shapes: the precisions lie
    between the input precision and 1024, the scales between 0 and their
    precision, and the sum is at least as wide as the output. *)
Theorem planner_shapes_legal (p_in s_in : Z) :
  1 <= p_in <= 1024 ->
  exists p_out s_out p_sum s_sum,
    getReturnType [NUMERIC p_in s_in] []
      = ([NumericColumn p_out s_out "exact_avg"], Ok tt) /\
    getIntermediateTypes [NUMERIC p_in s_in] []
      = ([NumericColumn p_sum s_sum "sum";
          IntColumn "cnt"; IntColumn "p_in"; IntColumn "s_in"], Ok tt) /\
    p_in <= p_out <= 1024 /\ 0 <= s_out <= p_out /\
    p_out <= p_sum <= 1024 /\ 0 <= s_sum <= p_sum.
Proof.
  intros Hp.
  exists (Z.min 1024 (p_in + 5)),
         (clamp (int32 (s_in + 5)) 0 (Z.min 1024 (p_in + 5))),
         (Z.min 1024 (p_in + 19)),
         (clamp s_in 0 (Z.min 1024 (p_in + 19))).
  split; [now rewrite getReturnType_any_scale|].
  split; [now rewrite getIntermediateTypes_clamps|].
  unfold clamp. lia.
Qed.

Lemma planner_shapes_legal_witness :
  exists p_out s_out p_sum s_sum,
    getReturnType [NUMERIC 1020 (-3)] []
      = ([NumericColumn p_out s_out "exact_avg"], Ok tt) /\
    getIntermediateTypes [NUMERIC 1020 (-3)] []
      = ([NumericColumn p_sum s_sum "sum";
          IntColumn "cnt"; IntColumn "p_in"; IntColumn "s_in"], Ok tt) /\
    1020 <= p_out <= 1024 /\ 0 <= s_out <= p_out /\
    p_out <= p_sum <= 1024 /\ 0 <= s_sum <= p_sum.
Proof.
  apply (planner_shapes_legal 1020 (-3)). lia.
Defined.

(** X2. The planner is monotone in the input precision: a larger [p_in]
    never gives a smaller output or sum precision; the output precision is
    1024 from [p_in = 1019] on and the sum precision from [p_in = 1005]
    on. *)
Theorem planner_monotone (p_in s_in p_in' s_in' : Z) :
  1 <= p_in -> p_in <= p_in' -> p_in' <= 1024 ->
  exists p_out s_out p_sum s_sum p_out' s_out' p_sum' s_sum',
    getReturnType [NUMERIC p_in s_in] []
      = ([NumericColumn p_out s_out "exact_avg"], Ok tt) /\
    getReturnType [NUMERIC p_in' s_in'] []
      = ([NumericColumn p_out' s_out' "exact_avg"], Ok tt) /\
    getIntermediateTypes [NUMERIC p_in s_in] []
      = ([NumericColumn p_sum s_sum "sum";
          IntColumn "cnt"; IntColumn "p_in"; IntColumn "s_in"], Ok tt) /\
    getIntermediateTypes [NUMERIC p_in' s_in'] []
      = ([NumericColumn p_sum' s_sum' "sum";
          IntColumn "cnt"; IntColumn "p_in"; IntColumn "s_in"], Ok tt) /\
    p_out <= p_out' /\ p_sum <= p_sum' /\
    (1019 <= p_in <-> p_out = 1024) /\ (1005 <= p_in <-> p_sum = 1024).
Proof.
  intros H1 H2 H3.
  exists (Z.min 1024 (p_in + 5)),
         (clamp (int32 (s_in + 5)) 0 (Z.min 1024 (p_in + 5))),
         (Z.min 1024 (p_in + 19)),
         (clamp s_in 0 (Z.min 1024 (p_in + 19))),
         (Z.min 1024 (p_in' + 5)),
         (clamp (int32 (s_in' + 5)) 0 (Z.min 1024 (p_in' + 5))),
         (Z.min 1024 (p_in' + 19)),
         (clamp s_in' 0 (Z.min 1024 (p_in' + 19))).
  rewrite !getReturnType_any_scale, !getIntermediateTypes_clamps by lia.
  repeat split; try reflexivity; lia.
Qed.

Lemma planner_monotone_witness :
  exists p_out s_out p_sum s_sum p_out' s_out' p_sum' s_sum',
    getReturnType [NUMERIC 75 2] []
      = ([NumericColumn p_out s_out "exact_avg"], Ok tt) /\
    getReturnType [NUMERIC 1019 0] []
      = ([NumericColumn p_out' s_out' "exact_avg"], Ok tt) /\
    getIntermediateTypes [NUMERIC 75 2] []
      = ([NumericColumn p_sum s_sum "sum";
          IntColumn "cnt"; IntColumn "p_in"; IntColumn "s_in"], Ok tt) /\
    getIntermediateTypes [NUMERIC 1019 0] []
      = ([NumericColumn p_sum' s_sum' "sum";
          IntColumn "cnt"; IntColumn "p_in"; IntColumn "s_in"], Ok tt) /\
    p_out <= p_out' /\ p_sum <= p_sum' /\
    (1019 <= 75 <-> p_out = 1024) /\ (1005 <= 75 <-> p_sum = 1024).
Proof.
  apply (planner_monotone 75 2 1019 0); lia.
Defined.

(** X3. The planner callbacks check their arguments before any shape: an
    argument list that is empty or longer than one is refused with the
    argument-count error, a single argument that is not NUMERIC with the
    type error, whatever precision it carries; in both cases nothing is
    added to the column list. *)
Theorem planner_argument_errors
        (inputTypes : list VerticaType) (cols : SizedColumnTypes) :
  (List.length inputTypes <> 1%nat ->
   getReturnType inputTypes cols = (cols, Throw ErrArgumentCount) /\
   getIntermediateTypes inputTypes cols = (cols, Throw ErrArgumentCount)) /\
  (forall inType,
      inputTypes = [inType] -> isNumeric inType = false ->
      getReturnType inputTypes cols = (cols, Throw ErrNotNumeric) /\
      getIntermediateTypes inputTypes cols = (cols, Throw ErrNotNumeric)).
Proof.
  split.
  - intros Hlen. destruct inputTypes as [|t [|t' ts]]; cbn in Hlen;
      [split; reflexivity | contradiction | split; reflexivity].
  - intros inType -> Hn. unfold getReturnType, getIntermediateTypes.
    cbv [bind when vt_report_error]. rewrite Hn. split; reflexivity.
Qed.

Lemma planner_argument_errors_witness :
  (getReturnType [] [] = ([], Throw ErrArgumentCount) /\
   getIntermediateTypes [] [] = ([], Throw ErrArgumentCount)) /\
  (getReturnType [{| isNumeric := false; getNumericPrecision := 10;
                     getNumericScale := 2 |}] []
     = ([], Throw ErrNotNumeric) /\
   getIntermediateTypes [{| isNumeric := false; getNumericPrecision := 10;
                            getNumericScale := 2 |}] []
     = ([], Throw ErrNotNumeric)).
Proof.
  split.
  - apply (proj1 (planner_argument_errors [] [])). cbn. lia.
  - apply (proj2 (planner_argument_errors
                    [{| isNumeric := false; getNumericPrecision := 10;
                        getNumericScale := 2 |}] [])
                 _ eq_refl eq_refl).
Defined.

(* ------------------------------------------------------------------------- *)
(** ** More on [aggregate] *)

Section Aggregation.

Context {N : VNumeric}.

(** [aggregate] throws what the recording of the input type throws. *)
Lemma aggregate_result
      (inType : VerticaType) (argReader : BlockReader) (a : IntermediateAggs) :
  snd (aggregate inType argReader a) = snd (record_input_type inType a).
Proof.
  rewrite aggregate_run.
  destruct (record_input_type inType a) as [a' [[]|e]]; reflexivity.
Qed.

(** The fields after a run of rows. *)
Lemma add_rows_fields (rows : list (option numeric)) :
  forall a,
    in_int64 (aggs_cnt a) ->
    fold_left (fun s r => add_row r s) rows a =
    {| aggs_sum := fold_left accumulate (non_null_values rows) (aggs_sum a);
       aggs_cnt := int64 (aggs_cnt a
                          + Z.of_nat (List.length (non_null_values rows)));
       aggs_p_in := aggs_p_in a; aggs_s_in := aggs_s_in a |}.
Proof.
  induction rows as [|[v|] rows IH]; intros a Hc.
  - cbn. rewrite Z.add_0_r, int64_small by exact Hc. destruct a; reflexivity.
  - cbn [fold_left non_null_values List.length]. rewrite IH.
    + cbn [add_row aggs_sum aggs_cnt aggs_p_in aggs_s_in]. f_equal.
      unfold int64. rewrite wrap_add_l. f_equal. lia.
    + cbn. apply int64_range.
  - cbn [fold_left non_null_values add_row]. now apply IH.
Qed.

(** X4. The three validations of the input type agree: [getReturnType],
    [getIntermediateTypes] and the first [aggregate] call of a group accept
    the same column types, and refuse the others with the same error. *)
Theorem validations_agree
        (inType : VerticaType) (argReader : BlockReader) (a0 : IntermediateAggs) :
  snd (getReturnType [inType] []) = snd (getIntermediateTypes [inType] []) /\
  snd (getReturnType [inType] [])
    = snd (aggregate inType argReader (initialize a0)).
Proof.
  rewrite aggregate_result, record_input_type_cases, initialize_fields.
  destruct inType as [b p s].
  unfold getReturnType, getIntermediateTypes. run_callback.
  cbn [aggs_p_in Z.eqb].
  destruct b; cbn [negb]; [|split; reflexivity].
  destruct (Z.leb_spec p 0); [split; reflexivity|].
  destruct (Z.gtb_spec p 1024); split; reflexivity.
Qed.

(** X5. [aggregate] can only throw while no input type is recorded: the
    error is then an [InvalidInputShape] one and the state is left as it
    was.  Once a precision is recorded the call succeeds whatever type the
    block declares, and the recorded precision and scale stay. *)
Theorem aggregate_throws_before_recording
        (inType : VerticaType) (argReader : BlockReader) (a : IntermediateAggs) :
  (forall e,
      snd (aggregate inType argReader a) = Throw e ->
      aggs_p_in a = 0 /\ fst (aggregate inType argReader a) = a /\
      error_kind e = InvalidInputShape) /\
  (aggs_p_in a <> 0 ->
   snd (aggregate inType argReader a) = Ok tt /\
   aggs_p_in (fst (aggregate inType argReader a)) = aggs_p_in a /\
   aggs_s_in (fst (aggregate inType argReader a)) = aggs_s_in a).
Proof.
  rewrite aggregate_run, record_input_type_cases. split.
  - intros e.
    destruct (Z.eqb_spec (aggs_p_in a) 0) as [Hz | Hnz];
      [|cbn; discriminate].
    destruct (negb (isNumeric inType)).
    { cbn. intros [= <-]. repeat split; assumption || reflexivity. }
    destruct ((getNumericPrecision inType <=? 0)
              || (getNumericPrecision inType >? MAX_NUMERIC_PRECISION)).
    { cbn. intros [= <-]. repeat split; assumption || reflexivity. }
    cbn. discriminate.
  - intros Hnz.
    destruct (Z.eqb_spec (aggs_p_in a) 0) as [Hz | _]; [contradiction|].
    cbn [fst snd]. split; [reflexivity|].
    apply add_rows_shape.
Qed.

(** X6. A successful [aggregate] call adds to the sum the values of the
    rows that are not null, in row order, and to the count their number
    (in 64-bit arithmetic); the nulls of the block leave no trace. *)
Theorem aggregate_adds_non_null_rows
        (inType : VerticaType) (argReader : BlockReader) (a : IntermediateAggs) :
  in_int64 (aggs_cnt a) ->
  snd (aggregate inType argReader a) = Ok tt ->
  let values := non_null_values (block_rows argReader) in
  let a' := fst (aggregate inType argReader a) in
  aggs_sum a' = fold_left accumulate values (aggs_sum a) /\
  aggs_cnt a' = int64 (aggs_cnt a + Z.of_nat (List.length values)).
Proof.
  intros Hc Hok. cbv zeta. rewrite aggregate_result in Hok.
  rewrite aggregate_run. unfold block_rows.
  rewrite record_input_type_cases in *.
  repeat match type of Hok with
         | context [if ?c then _ else _] => destruct c
         end; try discriminate Hok;
    cbn [fst]; rewrite add_rows_fields by exact Hc; split; reflexivity.
Qed.

(** X7. How the host cuts the rows into blocks does not matter: two
    [aggregate] calls in a row leave the state, and throw, as one call on
    the two blocks put together. *)
Theorem aggregate_blocks_compose
        (inType : VerticaType) (r1 r2 : BlockReader) (a : IntermediateAggs) :
  (aggregate inType r1 ;; aggregate inType r2) a
  = aggregate inType (block_append r1 r2) a.
Proof.
  unfold bind. rewrite (aggregate_run inType r1 a).
  rewrite (aggregate_run inType (block_append r1 r2) a).
  destruct (record_input_type inType a) as [a' [[]|e]] eqn:Hrec;
    [|reflexivity].
  assert (Hp : aggs_p_in a' <> 0).
  { rewrite record_input_type_cases in Hrec.
    destruct (Z.eqb_spec (aggs_p_in a) 0) as [Hz | Hnz].
    - destruct (negb (isNumeric inType)); [discriminate Hrec|].
      unfold MAX_NUMERIC_PRECISION in Hrec.
      destruct (Z.leb_spec (getNumericPrecision inType) 0);
        [discriminate Hrec|].
      destruct (Z.gtb_spec (getNumericPrecision inType) 1024);
        [discriminate Hrec|].
      cbn in Hrec. injection Hrec as <-. cbn. lia.
    - injection Hrec as <-. exact Hnz. }
  rewrite aggregate_run, record_input_type_cases.
  destruct (add_rows_shape (fst r1 :: snd r1) a') as [Hp' _].
  destruct (Z.eqb_spec
              (aggs_p_in (fold_left (fun s r => add_row r s)
                                    (fst r1 :: snd r1) a')) 0) as [Hz | _];
    [congruence|].
  unfold block_append. cbn [fst snd].
  change (fst r1 :: snd r1 ++ fst r2 :: snd r2)
    with ((fst r1 :: snd r1) ++ (fst r2 :: snd r2)).
  now rewrite fold_left_app.
Qed.

End Aggregation.

Lemma aggregate_throws_before_recording_witness :
  snd (aggregate (N := ZNumeric)
         {| isNumeric := false; getNumericPrecision := 0; getNumericScale := 0 |}
         (Some 5, []) (ZAggs 10 1 75 2)) = Ok tt /\
  aggs_p_in (fst (aggregate (N := ZNumeric)
         {| isNumeric := false; getNumericPrecision := 0; getNumericScale := 0 |}
         (Some 5, []) (ZAggs 10 1 75 2))) = 75 /\
  aggs_s_in (fst (aggregate (N := ZNumeric)
         {| isNumeric := false; getNumericPrecision := 0; getNumericScale := 0 |}
         (Some 5, []) (ZAggs 10 1 75 2))) = 2.
Proof.
  apply (proj2 (aggregate_throws_before_recording (N := ZNumeric)
                  {| isNumeric := false; getNumericPrecision := 0;
                     getNumericScale := 0 |}
                  (Some 5, []) (ZAggs 10 1 75 2))).
  cbn. lia.
Defined.

Lemma aggregate_adds_non_null_rows_witness :
  let a' := fst (aggregate (N := ZNumeric) (NUMERIC 75 2)
                   (Some 150, [None; Some 250; None]) (ZAggs 100 1 0 0)) in
  aggs_sum a' = 500 /\ aggs_cnt a' = 3.
Proof.
  apply (aggregate_adds_non_null_rows (N := ZNumeric) (NUMERIC 75 2)
           (Some 150, [None; Some 250; None]) (ZAggs 100 1 0 0)).
  - unfold in_int64, INT64_MAX. cbn. lia.
  - reflexivity.
Defined.

(* ------------------------------------------------------------------------- *)
(** ** Partitions *)

Lemma non_null_values_app {N : VNumeric} (l1 l2 : list (option numeric)) :
  non_null_values (l1 ++ l2) = non_null_values l1 ++ non_null_values l2.
Proof.
  induction l1 as [|[v|] l1 IH]; cbn; [reflexivity | now rewrite IH | exact IH].
Qed.

Section Partitions.

Context {N : VNumeric} {L : VNumericLaws N}.

Lemma accumulate_fold_left (l : list numeric) :
  forall x y,
    fold_left accumulate l (accumulate x y)
    = accumulate x (fold_left accumulate l y).
Proof.
  induction l as [|v l IH]; intros x y; [reflexivity|].
  cbn [fold_left]. rewrite accumulate_assoc. apply IH.
Qed.

(** X8. Aggregating two blocks of one column in two fresh partitions and
    combining the partial states gives the state of one partition that
    aggregates the rows of both, whether the column type is accepted or
    not. *)
Theorem partitions_combine_as_one
        (inType : VerticaType) (r1 r2 : BlockReader)
        (a1 a2 a : IntermediateAggs) :
  merge (fst (aggregate inType r1 (initialize a1)))
        (fst (aggregate inType r2 (initialize a2)))
  = fst (aggregate inType (block_append r1 r2) (initialize a)).
Proof.
  rewrite !aggregate_run, !record_input_type_cases, !initialize_fields.
  cbn [aggs_p_in Z.eqb].
  assert (Hfresh :
            merge {| aggs_sum := setZero; aggs_cnt := 0;
                     aggs_p_in := 0; aggs_s_in := 0 |}
                  {| aggs_sum := setZero; aggs_cnt := 0;
                     aggs_p_in := 0; aggs_s_in := 0 |}
            = {| aggs_sum := setZero; aggs_cnt := 0;
                 aggs_p_in := 0; aggs_s_in := 0 |}).
  { rewrite merge_fields. cbn [aggs_sum aggs_cnt aggs_p_in aggs_s_in].
    now rewrite accumulate_zero. }
  destruct (negb (isNumeric inType)); [exact Hfresh|].
  destruct ((getNumericPrecision inType <=? 0)
            || (getNumericPrecision inType >? MAX_NUMERIC_PRECISION));
    [exact Hfresh|].
  cbn [fst snd block_append].
  change (fst r1 :: snd r1 ++ fst r2 :: snd r2)
    with ((fst r1 :: snd r1) ++ (fst r2 :: snd r2)).
  assert (H0 : in_int64 0) by (unfold in_int64, INT64_MAX; cbn; lia).
  rewrite !add_rows_fields by exact H0.
  rewrite merge_fields.
  cbn [set_s_in set_p_in aggs_sum aggs_cnt aggs_p_in aggs_s_in].
  rewrite non_null_values_app, length_app, Nat2Z.inj_add, fold_left_app.
  f_equal.
  - rewrite <- accumulate_fold_left, accumulate_zero. reflexivity.
  - unfold int64. rewrite wrap_add_l, Z.add_comm, wrap_add_l.
    f_equal. lia.
  - apply Z.max_id.
  - apply Z.max_id.
Qed.

(** X9. [combine] cannot throw, takes the other partial aggregates in any
    order, and leaves the state that merging them first and combining the
    result would leave. *)
Theorem combine_order_irrelevant
        (a other other' : IntermediateAggs) (others others' : list IntermediateAggs) :
  Permutation (other :: others) (other' :: others') ->
  combine (other, others) a = combine (other', others') a /\
  snd (combine (other, others) a) = Ok tt /\
  fst (combine (other, others) a) = merge a (fold_left merge others other).
Proof.
  intros Hperm. rewrite !combine_run. cbn [fst snd].
  split; [|split].
  - f_equal.
    exact (fold_merge_permutation _ _ Hperm a).
  - reflexivity.
  - apply merge_fold_left.
Qed.

End Partitions.

Lemma partitions_combine_as_one_witness :
  merge (fst (aggregate (N := ZNumeric) (NUMERIC 75 2)
                (Some 150, [None]) (initialize (ZAggs 9 9 9 9))))
        (fst (aggregate (N := ZNumeric) (NUMERIC 75 2)
                (Some 250, [Some 500]) (initialize (ZAggs 0 0 0 0))))
  = ZAggs 900 3 75 2.
Proof.
  rewrite (partitions_combine_as_one (N := ZNumeric) (L := ZNumeric_laws)
             (NUMERIC 75 2) (Some 150, [None]) (Some 250, [Some 500])
             (ZAggs 9 9 9 9) (ZAggs 0 0 0 0) (ZAggs 0 0 0 0)).
  reflexivity.
Defined.

Lemma combine_order_irrelevant_witness :
  combine (N := ZNumeric) (ZAggs 150 1 75 2, [ZAggs 250 2 75 2]) (ZAggs 0 0 0 0)
  = combine (N := ZNumeric) (ZAggs 250 2 75 2, [ZAggs 150 1 75 2]) (ZAggs 0 0 0 0).
Proof.
  apply (combine_order_irrelevant (N := ZNumeric) (L := ZNumeric_laws)).
  apply perm_swap.
Defined.

(* ------------------------------------------------------------------------- *)
(** ** From the rows to the average *)

(** X10. The digit loop of [terminate] leaves a counter that is not
    positive at 0 digits; on the positive row counters it counts the decimal
    digits, between 1 and 19, is monotone, and steps up exactly at the powers
    of ten. *)
Theorem digits_loop_counts_digits (n m k : Z) :
  (n <= 0 -> digits_loop n 0 = 0) /\
  (0 < n -> n <= m -> m <= INT64_MAX ->
   decimalDigitCount n (digits_loop n 0) /\
   1 <= digits_loop n 0 /\ digits_loop n 0 <= digits_loop m 0 /\
   digits_loop m 0 <= 19) /\
  (1 <= k <= 18 ->
   digits_loop (10 ^ k - 1) 0 = k /\ digits_loop (10 ^ k) 0 = k + 1).
Proof.
  split; [|split].
  - intros Hn. now apply digits_loop_nonpos.
  - intros Hn Hnm Hm.
    destruct (digits_loop_vint n ltac:(lia)) as [Hdn _].
    destruct (digits_loop_vint m ltac:(lia)) as [Hdm Hm19].
    split; [exact Hdn|]. split; [apply Hdn|]. split; [|exact Hm19].
    destruct Hdn as (Hn1 & Hnlo & _), Hdm as (Hm1 & _ & Hmhi).
    destruct (Z_le_gt_dec (digits_loop n 0) (digits_loop m 0)) as [|Hgt];
      [assumption|exfalso].
    assert (10 ^ digits_loop m 0 <= 10 ^ (digits_loop n 0 - 1))
      by (apply Z.pow_le_mono_r; lia).
    lia.
  - intros Hk.
    assert (Hpow : 10 ^ k = 10 * 10 ^ (k - 1)).
    { rewrite <- Z.pow_succ_r by lia. f_equal. lia. }
    assert (Hk1 : 0 < 10 ^ (k - 1)) by (apply Z.pow_pos_nonneg; lia).
    assert (H18 : 10 ^ k <= 10 ^ 18) by (apply Z.pow_le_mono_r; lia).
    assert (Hmax : 10 ^ 18 < INT64_MAX) by (unfold INT64_MAX; cbn; lia).
    assert (Hsucc : 10 ^ (k + 1) = 10 * 10 ^ k).
    { rewrite <- Z.pow_succ_r by lia. reflexivity. }
    split.
    + destruct (digits_loop_vint (10 ^ k - 1) ltac:(lia)) as [Hd _].
      apply (decimalDigitCount_unique (10 ^ k - 1)); [exact Hd|].
      unfold decimalDigitCount. lia.
    + destruct (digits_loop_vint (10 ^ k) ltac:(lia)) as [Hd _].
      apply (decimalDigitCount_unique (10 ^ k)); [exact Hd|].
      unfold decimalDigitCount. replace (k + 1 - 1) with k by lia. lia.
Qed.

Lemma digits_loop_counts_digits_witness :
  digits_loop 0 0 = 0 /\
  (decimalDigitCount 999 (digits_loop 999 0) /\
   1 <= digits_loop 999 0 /\ digits_loop 999 0 <= digits_loop 1000 0 /\
   digits_loop 1000 0 <= 19) /\
  (digits_loop (10 ^ 18 - 1) 0 = 18 /\ digits_loop (10 ^ 18) 0 = 18 + 1).
Proof.
  split; [|split].
  - apply (proj1 (digits_loop_counts_digits 0 0 0)). lia.
  - apply (proj1 (proj2 (digits_loop_counts_digits 999 1000 1))).
    + lia.
    + lia.
    + unfold INT64_MAX. cbn. lia.
  - apply (proj2 (proj2 (digits_loop_counts_digits 1 1 18))). lia.
Defined.

(** X11. The sum shape of the planner covers what [terminate] accepts: for
    an input precision in [[1, 1024]] and a positive row counter whose
    required precision [p_in + digits] does not exceed 1024, the declared
    sum precision is at least that required precision. *)
Theorem sum_shape_covers_required_precision (p_in s_in rowCount : Z) :
  1 <= p_in <= 1024 ->
  1 <= rowCount <= INT64_MAX ->
  p_in + digits_loop rowCount 0 <= 1024 ->
  exists p_sum s_sum,
    getIntermediateTypes [NUMERIC p_in s_in] []
      = ([NumericColumn p_sum s_sum "sum";
          IntColumn "cnt"; IntColumn "p_in"; IntColumn "s_in"], Ok tt) /\
    p_in + digits_loop rowCount 0 <= p_sum.
Proof.
  intros Hp Hn Hneed.
  destruct (digits_loop_vint rowCount ltac:(lia)) as [_ H19].
  exists (Z.min 1024 (p_in + 19)), (clamp s_in 0 (Z.min 1024 (p_in + 19))).
  split; [now rewrite getIntermediateTypes_clamps|]. lia.
Qed.

Lemma sum_shape_covers_required_precision_witness :
  exists p_sum s_sum,
    getIntermediateTypes [NUMERIC 1020 2] []
      = ([NumericColumn p_sum s_sum "sum";
          IntColumn "cnt"; IntColumn "p_in"; IntColumn "s_in"], Ok tt) /\
    1020 + digits_loop 9999 0 <= p_sum.
Proof.
  apply (sum_shape_covers_required_precision 1020 2 9999).
  - lia.
  - unfold INT64_MAX. cbn. lia.
  - replace (digits_loop 9999 0) with 4 by reflexivity. lia.
Defined.

Section Average.

Context {N : VNumeric}.

(** X12. One partition, from the rows to the result: after a fresh state
    has aggregated a block of a NUMERIC(p, s) column with [p] in
    [[1, 1024]] and [s >= 0], [finalize] returns null when every row is
    null; otherwise, with [k] rows that are not null, it raises
    [PrecisionExceeded] when [p] plus the digits of [k] exceeds 1024 and else
    returns the sum of the values, accumulated in row order from zero,
    divided by [k]. *)
Theorem average_of_one_partition
        (p s d : Z) (argReader : BlockReader) (a0 : IntermediateAggs)
        (sumType : VerticaType) :
  1 <= p <= 1024 -> 0 <= s ->
  let values := non_null_values (block_rows argReader) in
  let k := Z.of_nat (List.length values) in
  let a := fst (aggregate (NUMERIC p s) argReader (initialize a0)) in
  (values = [] -> finalize sumType a = Returned OutNull) /\
  (1 <= k <= INT64_MAX -> decimalDigitCount k d ->
   finalize sumType a =
   if p + d >? 1024
   then Raised (ErrPrecisionExceeded (p + d) p d k 1024)
   else Returned (OutValue
                    (div (fold_left accumulate values setZero)
                         (copy (getNumericPrecision sumType)
                               (getNumericScale sumType) k)))).
Proof.
  intros Hp Hs. cbv zeta.
  assert (Ha : fst (aggregate (NUMERIC p s) argReader (initialize a0))
               = {| aggs_sum := fold_left accumulate
                                  (non_null_values (block_rows argReader)) setZero;
                    aggs_cnt := int64 (Z.of_nat (List.length
                                  (non_null_values (block_rows argReader))));
                    aggs_p_in := p; aggs_s_in := s |}).
  { rewrite aggregate_run, record_input_type_cases, initialize_fields.
    cbn [aggs_p_in Z.eqb NUMERIC isNumeric negb
         getNumericPrecision getNumericScale].
    unfold MAX_NUMERIC_PRECISION.
    destruct (Z.leb_spec p 0); [lia|].
    destruct (Z.gtb_spec p 1024); [lia|].
    cbn [orb fst]. rewrite add_rows_fields
      by (unfold in_int64, INT64_MAX; cbn; lia).
    reflexivity. }
  rewrite Ha. split.
  - intros ->. reflexivity.
  - intros Hk Hd.
    rewrite int64_small
      by (unfold in_int64; change (2 ^ 63) with 9223372036854775808; lia).
    match goal with
    | |- finalize _ ?st = _ =>
        destruct (finalize_certificate sumType st) as [Hd' Hfin];
        [exact Hk | exact Hp | exact Hs |]
    end.
    cbv zeta in Hd', Hfin. cbn [aggs_sum aggs_cnt aggs_p_in aggs_s_in] in *.
    rewrite (decimalDigitCount_unique _ _ _ Hd' Hd) in Hfin. exact Hfin.
Qed.

(** X13. Nineteen guard digits are enough up to precision 1005 and never at
    precision 1024: on a state with a positive row counter and a stored
    scale that is not negative, [finalize] returns the quotient when the
    stored precision is in [[1, 1005]], and raises [PrecisionExceeded] when
    it is 1024, however few the rows. *)
Theorem guard_digits_suffice (sumType : VerticaType) (a : IntermediateAggs) :
  1 <= aggs_cnt a <= INT64_MAX ->
  0 <= aggs_s_in a ->
  (1 <= aggs_p_in a <= 1005 ->
   finalize sumType a
   = Returned (OutValue
                 (div (aggs_sum a)
                      (copy (getNumericPrecision sumType)
                            (getNumericScale sumType) (aggs_cnt a))))) /\
  (aggs_p_in a = 1024 ->
   finalize sumType a
   = Raised (ErrPrecisionExceeded (1024 + digits_loop (aggs_cnt a) 0) 1024
                                  (digits_loop (aggs_cnt a) 0)
                                  (aggs_cnt a) 1024)).
Proof.
  intros Hn Hs.
  destruct (digits_loop_vint (aggs_cnt a) ltac:(lia)) as [(Hd1 & _) Hd19].
  split; intros Hp.
  - destruct (finalize_certificate sumType a Hn ltac:(lia) Hs) as [_ Hfin].
    cbv zeta in Hfin. rewrite Hfin.
    destruct (Z.gtb_spec (aggs_p_in a + digits_loop (aggs_cnt a) 0) 1024);
      [lia | reflexivity].
  - destruct (finalize_certificate sumType a Hn ltac:(lia) Hs) as [_ Hfin].
    cbv zeta in Hfin. rewrite Hfin, Hp.
    destruct (Z.gtb_spec (1024 + digits_loop (aggs_cnt a) 0) 1024);
      [reflexivity | lia].
Qed.

(** X14. What [terminate] never does on a state whose row counter is a
    [vint]: it never reports a zero digit count (that check is dead), never
    returns without writing the result, and never fails with an
    [InvalidInputShape] error. *)
Theorem terminate_never (sumType : VerticaType) (a : IntermediateAggs) :
  aggs_cnt a <= INT64_MAX ->
  (forall v, finalize sumType a <> Raised (ErrZeroDigitCount v)) /\
  finalize sumType a <> Returned Unwritten /\
  (forall e, finalize sumType a = Raised e -> error_kind e <> InvalidInputShape).
Proof.
  intros Hn.
  assert (Hdig : 0 < aggs_cnt a -> (digits_loop (aggs_cnt a) 0 =? 0) = false).
  { intros Hpos.
    destruct (digits_loop_vint (aggs_cnt a) ltac:(lia)) as [(Hd1 & _) _].
    apply Z.eqb_neq. lia. }
  rewrite finalize_run.
  destruct (Z.eqb_spec (aggs_cnt a) 0);
    [repeat split; intros; discriminate|].
  destruct (aggs_s_in a <? 0);
    [repeat split; try discriminate; intros e [= <-]; discriminate|].
  destruct ((aggs_p_in a <=? 0) || (aggs_p_in a >? MAX_NUMERIC_PRECISION));
    [repeat split; try discriminate; intros e [= <-]; discriminate|].
  destruct (Z.ltb_spec (aggs_cnt a) 0);
    [repeat split; try discriminate; intros e [= <-]; discriminate|].
  rewrite Hdig by lia.
  destruct (int32 (int32 (aggs_p_in a) + digits_loop (aggs_cnt a) 0)
            >? MAX_NUMERIC_PRECISION);
    repeat split; try discriminate; intros e [= <-]; discriminate.
Qed.

End Average.

Lemma average_of_one_partition_witness :
  finalize (N := ZNumeric) (NUMERIC 94 2)
    (fst (aggregate (N := ZNumeric) (NUMERIC 75 2)
            (Some 150, [None; Some 250; Some 500])
            (initialize (ZAggs 0 0 0 0))))
  = Returned (OutValue (N := ZNumeric) 300).
Proof.
  apply (proj2 (average_of_one_partition (N := ZNumeric) 75 2 1
                  (Some 150, [None; Some 250; Some 500]) (ZAggs 0 0 0 0)
                  (NUMERIC 94 2) ltac:(lia) ltac:(lia))).
  - unfold INT64_MAX. cbn. lia.
  - unfold decimalDigitCount. cbn. lia.
Defined.

Lemma guard_digits_suffice_witness :
  finalize (N := ZNumeric) (NUMERIC 1024 0) (ZAggs 7 1 1024 0)
  = Raised (ErrPrecisionExceeded 1025 1024 1 1 1024).
Proof.
  apply (proj2 (guard_digits_suffice (N := ZNumeric) (NUMERIC 1024 0)
                  (ZAggs 7 1 1024 0)
                  ltac:(unfold INT64_MAX; cbn; lia) ltac:(cbn; lia))).
  reflexivity.
Defined.

Lemma terminate_never_witness :
  finalize (N := ZNumeric) (NUMERIC 94 2) (ZAggs 7 (-3) 75 2)
    <> Raised (ErrZeroDigitCount (-3)) /\
  finalize (N := ZNumeric) (NUMERIC 94 2) (ZAggs 7 (-3) 75 2)
    <> Returned Unwritten.
Proof.
  destruct (terminate_never (N := ZNumeric) (NUMERIC 94 2) (ZAggs 7 (-3) 75 2))
    as (Hzero & Hout & _).
  - unfold INT64_MAX. cbn. lia.
  - split; [apply Hzero | exact Hout].
Defined.

(* ------------------------------------------------------------------------- *)
(** ** The groups of one column *)

Section OneColumn.

Context {N : VNumeric}.

Variable inType : VerticaType.
Hypothesis inType_numeric : isNumeric inType = true.
Hypothesis inType_precision : 1 <= getNumericPrecision inType <= 1024.
Hypothesis inType_scale : 0 <= getNumericScale inType.

(** Nothing recorded and nothing counted, or the shape of the column. *)
Let shape_of_column (a : IntermediateAggs) : Prop :=
  in_int64 (aggs_cnt a) /\
  ((aggs_p_in a = 0 /\ aggs_s_in a = 0 /\ aggs_cnt a = 0) \/
   (aggs_p_in a = getNumericPrecision inType /\
    aggs_s_in a = getNumericScale inType)).

Lemma shape_of_column_aggregate (argReader : BlockReader) (a : IntermediateAggs) :
  shape_of_column a -> shape_of_column (fst (aggregate inType argReader a)).
Proof.
  intros [Hc Hshape]. rewrite aggregate_run, record_input_type_cases.
  rewrite inType_numeric. cbn [negb]. unfold MAX_NUMERIC_PRECISION.
  destruct (Z.leb_spec (getNumericPrecision inType) 0); [lia|].
  destruct (Z.gtb_spec (getNumericPrecision inType) 1024); [lia|].
  cbn [orb].
  destruct (Z.eqb_spec (aggs_p_in a) 0) as [Hz | Hnz]; cbn [fst];
    rewrite add_rows_fields by exact Hc;
    (split; [apply int64_range | right]);
    cbn [set_s_in set_p_in aggs_p_in aggs_s_in].
  - split; reflexivity.
  - destruct Hshape as [(Hp & _) | Hshape]; [contradiction | exact Hshape].
Qed.

Lemma shape_of_column_merge (a b : IntermediateAggs) :
  shape_of_column a -> shape_of_column b -> shape_of_column (merge a b).
Proof.
  intros [Hca Ha] [Hcb Hb]. rewrite merge_fields. split.
  - apply int64_range.
  - cbn [aggs_p_in aggs_s_in aggs_cnt].
    destruct Ha as [(Hpa & Hsa & Hna) | (Hpa & Hsa)],
             Hb as [(Hpb & Hsb & Hnb) | (Hpb & Hsb)];
      rewrite ?Hpa, ?Hsa, ?Hna, ?Hpb, ?Hsb, ?Hnb.
    + left. repeat split; reflexivity.
    + right. split; lia.
    + right. split; lia.
    + right. split; lia.
Qed.

Lemma shape_of_column_merge_all (others : list IntermediateAggs) :
  forall a,
    shape_of_column a ->
    (forall o, In o others -> shape_of_column o) ->
    shape_of_column (fold_left merge others a).
Proof.
  induction others as [|o others IH]; intros a Ha Hall; [exact Ha|].
  cbn [fold_left]. apply IH.
  - apply shape_of_column_merge; [exact Ha | apply Hall; now left].
  - intros o' Ho'. apply Hall. now right.
Qed.

(** X15. While every block of a group comes from one column, of a NUMERIC
    type with precision in [[1, 1024]] and a scale that is not negative,
    the state keeps its count within the [vint] range and its recorded shape
    is either unset, with nothing counted, or exactly the shape of the
    column: the maximum that [combine] takes never mixes two shapes. *)
Theorem one_column_shape (a : IntermediateAggs) :
  reachable_from inType a ->
  in_int64 (aggs_cnt a) /\
  ((aggs_p_in a = 0 /\ aggs_s_in a = 0 /\ aggs_cnt a = 0) \/
   (aggs_p_in a = getNumericPrecision inType /\
    aggs_s_in a = getNumericScale inType)).
Proof.
  change (reachable_from inType a -> shape_of_column a).
  induction 1 as [a0 | a argReader _ IH | a other others _ IHa _ IHo].
  - split; [unfold in_int64, INT64_MAX; cbn; lia|].
    left. repeat split; reflexivity.
  - now apply shape_of_column_aggregate.
  - rewrite combine_run. cbn [fst snd].
    apply shape_of_column_merge_all.
    + apply shape_of_column_merge; [exact IHa | apply IHo; now left].
    + intros o Ho. apply IHo. now right.
Qed.

Lemma reachable_from_shape_of_column (a : IntermediateAggs) :
  reachable_from inType a -> shape_of_column a.
Proof.
  induction 1 as [a0 | a argReader _ IH | a other others _ IHa _ IHo].
  - split; [unfold in_int64, INT64_MAX; cbn; lia|].
    left. repeat split; reflexivity.
  - now apply shape_of_column_aggregate.
  - rewrite combine_run. cbn [fst snd].
    apply shape_of_column_merge_all.
    + apply shape_of_column_merge; [exact IHa | apply IHo; now left].
    + intros o Ho. apply IHo. now right.
Qed.

End OneColumn.

Lemma one_column_shape_witness :
  let a := fst (combine (N := ZNumeric)
                  (initialize (ZAggs 0 0 0 0), [])
                  (fst (aggregate (N := ZNumeric) (NUMERIC 75 2)
                          (Some 150, [None; Some 250])
                          (initialize (ZAggs 0 0 0 0))))) in
  in_int64 (aggs_cnt a) /\
  ((aggs_p_in a = 0 /\ aggs_s_in a = 0 /\ aggs_cnt a = 0) \/
   (aggs_p_in a = 75 /\ aggs_s_in a = 2)).
Proof.
  cbv zeta.
  apply (one_column_shape (N := ZNumeric) (NUMERIC 75 2)
           eq_refl ltac:(cbn; lia) ltac:(cbn; lia)).
  apply from_combine.
  - apply from_aggregate, from_init.
  - intros o [<- | []]. apply from_init.
Defined.

(* ------------------------------------------------------------------------- *)
(** ** The certificate on merged states *)

(** C1. On every merged state of a group, that is every state built by
    [initAggregate], [aggregate] and [combine] from the blocks of one NUMERIC
    column with precision in [[1, 1024]] and a scale that is not negative,
    with a count [n >= 1]: the stored input precision [p] lies in
    [[1, 1024]], and [finalize] raises [PrecisionExceeded] if and only if
    [p + d > 1024], where [d] is the number of decimal digits of [n].  When
    [p + d > 1024] it reports [p + d], [p], [d], [n] and 1024 and returns no
    result; when [p + d <= 1024] it raises no [PrecisionExceeded]. *)
Theorem precision_exceeded_iff_merged
        {N : VNumeric} (inType sumType : VerticaType)
        (a : IntermediateAggs) (d : Z) :
  isNumeric inType = true ->
  1 <= getNumericPrecision inType <= 1024 ->
  0 <= getNumericScale inType ->
  reachable_from inType a ->
  1 <= aggs_cnt a ->
  decimalDigitCount (aggs_cnt a) d ->
  1 <= aggs_p_in a <= 1024 /\
  ((exists e, finalize sumType a = Raised e /\ error_kind e = PrecisionExceeded)
   <-> aggs_p_in a + d > 1024) /\
  (aggs_p_in a + d > 1024 ->
   finalize sumType a
     = Raised (ErrPrecisionExceeded (aggs_p_in a + d) (aggs_p_in a) d
                                    (aggs_cnt a) 1024) /\
   forall out, finalize sumType a <> Returned out) /\
  (aggs_p_in a + d <= 1024 ->
   forall e, finalize sumType a = Raised e -> error_kind e <> PrecisionExceeded).
Proof.
  intros Hnum Hprec Hscale Hreach Hn Hd.
  destruct (reachable_from_shape_of_column inType Hnum Hprec Hscale a Hreach)
    as [Hc [(_ & _ & Hc0) | (Hp & Hs)]]; [lia|].
  assert (Hn' : 1 <= aggs_cnt a <= INT64_MAX) by (unfold in_int64 in Hc; lia).
  assert (Hp' : 1 <= aggs_p_in a <= 1024) by lia.
  assert (Hs' : 0 <= aggs_s_in a) by lia.
  destruct (finalize_certificate sumType a Hn' Hp' Hs') as [Hd' Hfin].
  cbv zeta in Hd', Hfin.
  rewrite (decimalDigitCount_unique _ _ _ Hd' Hd) in Hfin. clear Hd'.
  split; [exact Hp'|].
  destruct (Z.gtb_spec (aggs_p_in a + d) 1024) as [Hgt | Hle].
  - split; [|split].
    + split; [lia|]. intros _. eexists. split; [exact Hfin | reflexivity].
    + intros _. split; [exact Hfin|].
      intros out H. rewrite Hfin in H. discriminate H.
    + lia.
  - split; [|split].
    + split; [|lia]. intros (e & He & _). rewrite Hfin in He. discriminate He.
    + lia.
    + intros _ e H. rewrite Hfin in H. discriminate H.
Qed.

(** Ten rows of a NUMERIC(1023, 2) column, in two partitions: the sum may
    need 1025 digits. *)
Lemma precision_exceeded_iff_merged_witness :
  let a := merge (fst (aggregate (N := ZNumeric) (NUMERIC 1023 2)
                         (Some 1, repeat (Some 1) 5)
                         (initialize (ZAggs 0 0 0 0))))
                 (fst (aggregate (N := ZNumeric) (NUMERIC 1023 2)
                         (Some 1, repeat (Some 1) 3)
                         (initialize (ZAggs 0 0 0 0)))) in
  a = ZAggs 10 10 1023 2 /\
  finalize (N := ZNumeric) (NUMERIC 1024 2) a
    = Raised (ErrPrecisionExceeded 1025 1023 2 10 1024).
Proof.
  cbv zeta. split; [reflexivity|].
  refine (proj1 (proj1 (proj2 (proj2
    (precision_exceeded_iff_merged (N := ZNumeric)
       (NUMERIC 1023 2) (NUMERIC 1024 2) _ 2 eq_refl _ _ _ _ _))) _)).
  - cbn. lia.
  - cbn. lia.
  - change (merge ?x ?y) with (fst (combine (y, []) x)).
    apply from_combine.
    + apply from_aggregate, from_init.
    + intros o [<- | []]. apply from_aggregate, from_init.
  - cbn. lia.
  - unfold decimalDigitCount. cbn. lia.
  - cbn. lia.
Defined.
